(** * parse_questions.py: extraction of student names and questions

    A shallow embedding of [src/parse_questions.py] and the properties its
    specification states about it.

    - [Py]: the Python [str] operations the program calls ([strip], [split],
      [join], [sorted], [str(int)]), over sequences of Unicode code points.
    - [Re]: the fragment of Python's backtracking [re] engine that the
      program's one pattern needs, with [re.search].
    - [Bs4]: the part of the BeautifulSoup tree API the program calls
      ([find], [find_all], [get_text]).
    - [ParseQuestions]: [parse_html_file], [process_directory] and
      [format_output], written as in the source. *)

From Stdlib Require Import List NArith Arith Bool Lia String Ascii.
From Stdlib Require Import Sorted Permutation DecimalString.
Import ListNotations.

Set Implicit Arguments.

(* ================================================================== *)
(** ** Python strings *)

Module Py.

(** A Python [str] is a sequence of Unicode code points. *)
Definition char := N.
Definition str := list char.

(** String literals of the source, written as Rocq strings (one code point
    per character; the source's literals are ASCII except ['\xa0']). *)
Definition py (s : string) : str :=
  List.map N_of_ascii (list_ascii_of_string s).

Definition NBSP : char := 160%N.
Definition LF : char := 10%N.
Definition SPACE : char := 32%N.

Definition char_eqb : char -> char -> bool := N.eqb.

Fixpoint str_eqb (a b : str) : bool :=
  match a, b with
  | [], [] => true
  | x :: a', y :: b' => char_eqb x y && str_eqb a' b'
  | _, _ => false
  end.

(** [Py_UNICODE_ISSPACE]: the whitespace of [str.strip()], [str.split()]
    and of [\s] in a [str] pattern. *)
Definition isspace (c : char) : bool :=
  ((9 <=? c) && (c <=? 13) || (28 <=? c) && (c <=? 32)
   || (c =? 133) || (c =? 160) || (c =? 5760)
   || (8192 <=? c) && (c <=? 8202)
   || (c =? 8232) || (c =? 8233) || (c =? 8239) || (c =? 8287)
   || (c =? 12288))%N.

(** Truthiness of a [str]: non-empty. *)
Definition truthy (s : str) : bool :=
  match s with [] => false | _ :: _ => true end.

Fixpoint lstrip (s : str) : str :=
  match s with
  | c :: s' => if isspace c then lstrip s' else s
  | [] => []
  end.

Definition rstrip (s : str) : str := rev (lstrip (rev s)).

(** [s.strip()] *)
Definition strip (s : str) : str := rstrip (lstrip s).

(** [s.split()]: the words between whitespace runs, none of them empty.
    [cur] is the word being read. *)
Fixpoint split_from (cur : str) (s : str) : list str :=
  match s with
  | [] => if truthy cur then [cur] else []
  | c :: s' =>
      if isspace c
      then (if truthy cur then cur :: split_from [] s' else split_from [] s')
      else split_from (cur ++ [c]) s'
  end.

Definition split (s : str) : list str := split_from [] s.

(** [sep.join(l)] *)
Fixpoint join (sep : str) (l : list str) : str :=
  match l with
  | [] => []
  | [x] => x
  | x :: l' => x ++ sep ++ join sep l'
  end.

(** [str(n)] for a non-negative [int]. *)
Definition str_of_nat (n : nat) : str :=
  py (NilZero.string_of_uint (Nat.to_uint n)).

(** Comparison of [str]: lexicographic on code points. *)
Fixpoint str_leb (a b : str) : bool :=
  match a, b with
  | [], _ => true
  | _ :: _, [] => false
  | x :: a', y :: b' => (x <? y)%N || (x =? y)%N && str_leb a' b'
  end.

Definition str_le (a b : str) : Prop := str_leb a b = true.

Fixpoint insert_sorted (x : str) (l : list str) : list str :=
  match l with
  | [] => [x]
  | y :: l' => if str_leb x y then x :: l else y :: insert_sorted x l'
  end.

(** [sorted(l)] on a list of [str]. The order is total and antisymmetric,
    so every sorting algorithm returns this same list. *)
Fixpoint sorted (l : list str) : list str :=
  match l with
  | [] => []
  | x :: l' => insert_sorted x (sorted l')
  end.

End Py.

(* ================================================================== *)
(** ** The regular-expression engine

    Python's [re] is a backtracking matcher: a greedy repetition takes as
    many characters as it can and gives them back one at a time while the
    rest of the pattern fails; [re.search] tries the start positions from
    left to right and returns the first match. The program's pattern uses
    literals, the classes [\s], [\d] and [.], greedy [*] and [+] on a single
    class, concatenation and one capturing group, so that is the fragment
    embedded here. *)

Module Re.
Import Py.

(** Single-character atoms: a literal character, [\s], [\d], [.] *)
Inductive cls : Type :=
| Chr (c : char)
| Space
| Digit
| Dot.

Inductive regex : Type :=
| Eps
| One (a : cls)
| Star (a : cls)
| Plus (a : cls)
| Cat (r1 r2 : regex)
| Group (r : regex).

(** A match object, reduced to what the program reads: [group(1)], which is
    [None] when the group took no part in the match. *)
Definition match_obj := option str.

Definition group1 (m : match_obj) : option str := m.

Section Engine.

(** [\d] in a [str] pattern is [Py_UNICODE_ISDECIMAL]: the ASCII digits and,
    beyond ASCII, the characters of Unicode category Nd, a table of the
    interpreter's Unicode database. *)
Variable unicode_Nd : char -> bool.

Definition isdecimal (c : char) : bool :=
  if (c <? 128)%N then (48 <=? c)%N && (c <=? 57)%N else unicode_Nd c.

Definition accepts (a : cls) (c : char) : bool :=
  match a with
  | Chr x => char_eqb x c
  | Space => isspace c
  | Digit => isdecimal c
  | Dot => negb (char_eqb c LF)
  end.

Section Backtrack.
Variable R : Type.

(** Greedy [a*] followed by the continuation [k]: the longest run first,
    then shorter ones. *)
Fixpoint star (p : char -> bool) (s : str) (k : str -> option R) : option R :=
  match s with
  | c :: s' =>
      if p c
      then match star p s' k with
           | Some r => Some r
           | None => k s
           end
      else k s
  | [] => k s
  end.

Definition one (p : char -> bool) (s : str) (k : str -> option R) : option R :=
  match s with
  | c :: s' => if p c then k s' else None
  | [] => None
  end.

(** [exec r s g k]: match [r] at the head of [s], with [g] the group
    captured so far, then continue with [k] on what is left. *)
Fixpoint exec (r : regex) (s : str) (g : match_obj)
    (k : str -> match_obj -> option R) : option R :=
  match r with
  | Eps => k s g
  | One a => one (accepts a) s (fun s' => k s' g)
  | Star a => star (accepts a) s (fun s' => k s' g)
  | Plus a => one (accepts a) s (fun s' => star (accepts a) s' (fun s'' => k s'' g))
  | Cat r1 r2 => exec r1 s g (fun s' g' => exec r2 s' g' k)
  | Group r' =>
      exec r' s g
        (fun s' _ => k s' (Some (firstn (List.length s - List.length s') s)))
  end.

End Backtrack.

(** A match that starts at the head of [s]. *)
Definition match_here (r : regex) (s : str) : option match_obj :=
  exec r s None (fun _ g => Some g).

(** [re.search(r, s)] *)
Fixpoint search (r : regex) (s : str) : option match_obj :=
  match match_here r s with
  | Some m => Some m
  | None =>
      match s with
      | [] => None
      | _ :: s' => search r s'
      end
  end.

End Engine.

(** The pieces of a pattern, one after the other. *)
Definition seq (rs : list regex) : regex := fold_right Cat Eps rs.

(** A literal string. *)
Definition lit (s : str) : regex := seq (List.map (fun c => One (Chr c)) s).

(** [r'Questions\s+\d+/\d+:\s*(.+)'] *)
Definition name_pattern : regex :=
  seq [lit (py "Questions"); Plus Space; Plus Digit; lit (py "/");
       Plus Digit; lit (py ":"); Star Space; Group (Plus Dot)].

End Re.

(* ================================================================== *)
(** ** The BeautifulSoup tree

    What [BeautifulSoup(content, 'html.parser')] hands to the program: a tree
    of tags and of the strings [get_text()] collects. The document itself
    is the root tag. *)

Module Bs4.
Import Py.

#[warnings="-register-all"]
Inductive node : Type :=
| Text (s : str)
| Tag (name : str) (contents : list node).

(** [tag.descendants]: every node below [n], in document order. *)
Fixpoint descendants (n : node) : list node :=
  match n with
  | Text _ => []
  | Tag _ contents => flat_map (fun c => c :: descendants c) contents
  end.

Definition is_tag (name : str) (n : node) : bool :=
  match n with
  | Tag x _ => str_eqb x name
  | Text _ => false
  end.

(** [tag.find_all(name)]: the search is recursive by default. *)
Definition find_all (name : str) (n : node) : list node :=
  filter (is_tag name) (descendants n).

(** [tag.find(name)]: the first result of [find_all], or [None]. *)
Definition find (name : str) (n : node) : option node :=
  hd_error (find_all name n).

(** [tag.get_text()]: the strings below the tag, concatenated. *)
Fixpoint get_text (n : node) : str :=
  match n with
  | Text s => s
  | Tag _ contents => flat_map get_text contents
  end.

(** [tag.children] that are [name] tags: the direct children only. *)
Definition children_named (name : str) (n : node) : list node :=
  match n with
  | Text _ => []
  | Tag _ contents => filter (is_tag name) contents
  end.

End Bs4.

(* ================================================================== *)
(** ** The program *)

Module ParseQuestions.
Import Py Bs4.

(** The dict [parse_html_file] returns. *)
Record parsed : Type := mk_parsed {
  student_name : str;
  questions : list str;
  file_path : str
}.

(** A computation inside [try]: a value, or a raised exception with the
    text [str(e)] of the handler's message. *)
Inductive result (A : Type) : Type :=
| Ok (a : A)
| Raise (e : str).

Arguments Ok {A} a.
Arguments Raise {A} e.

Definition bind {A B : Type} (c : result A) (k : A -> result B) : result B :=
  match c with
  | Ok a => k a
  | Raise e => Raise e
  end.

(** A computation that prints: its value and the lines written to the
    console, oldest first. *)
Definition Console (A : Type) : Type := (A * list str)%type.

Definition ret {A : Type} (a : A) : Console A := (a, []).

Definition print (line : str) : Console unit := (tt, [line]).

Definition and_then {A B : Type} (c : Console A) (k : A -> Console B)
    : Console B :=
  let (a, out1) := c in
  let (b, out2) := k a in
  (b, out1 ++ out2).

Definition value {A : Type} (c : Console A) : A := fst c.

Declare Scope prog_scope.
Delimit Scope prog_scope with prog.
Notation "x <- c ;; k" := (bind c (fun x => k))
  (at level 61, c at next level, right associativity) : prog_scope.
Notation "x <~ c ;; k" := (and_then c (fun x => k))
  (at level 61, c at next level, right associativity) : prog_scope.
Notation "c ;;; k" := (and_then c (fun _ => k))
  (at level 61, right associativity) : prog_scope.
Open Scope prog_scope.

(** [enumerate(l, start)] *)
Definition enumerate {A : Type} (l : list A) (start : nat) : list (nat * A) :=
  combine (seq start (List.length l)) l.

Section Program.

(** The collaborators of the program: the Unicode table behind [\d]; reading
    a file and building its tree (lines 23-26), which may raise; and the
    file-system queries of [process_directory]. *)
Variable unicode_Nd : char -> bool.
Variable read_soup : str -> result node.
Variable glob : str -> list str.
Variable path_join : str -> str -> str.
Variable basename : str -> str.

Definition Unknown_Student : str := py "Unknown Student".
Definition Error_parsing_file : str := py "Error parsing file".

(** Lines 36-38 and 45-47: search [text] for the pattern and, on a match,
    replace the name by the trimmed group; [.strip()] on a group that is
    [None] raises. *)
Definition name_from (text : str) (student_name : str) : result str :=
  match Re.search unicode_Nd Re.name_pattern text with
  | Some m =>
      match Re.group1 m with
      | Some label => Ok (strip label)
      | None => Raise (py "'NoneType' object has no attribute 'strip'")
      end
  | None => Ok student_name
  end.

(** Lines 29-47. *)
Definition extract_name (soup : node) : result str :=
  let student_name := Unknown_Student in
  student_name <-
    match find (py "title") soup with
    | Some title => name_from (strip (get_text title)) student_name
    | None => Ok student_name
    end ;;
  if str_eqb student_name Unknown_Student then
    match find (py "h1") soup with
    | Some h1 => name_from (strip (get_text h1)) student_name
    | None => Ok student_name
    end
  else Ok student_name.

(** One turn of the loop of lines 58-73, on the state
    [(current_question, questions)]. *)
Definition paragraph_step (st : str * list str) (p : node) : str * list str :=
  let (current_question, questions) := st in
  let text := strip (get_text p) in
  if negb (truthy text) || str_eqb text [NBSP] then
    if truthy (strip current_question)
    then ([], questions ++ [strip current_question])
    else (current_question, questions)
  else if truthy current_question
    then (current_question ++ py " " ++ text, questions)
    else (text, questions).

(** Lines 57-77: the loop, then the last question. *)
Definition collect_questions (paragraphs : list node) : list str :=
  let (current_question, questions) :=
    fold_left paragraph_step paragraphs ([], []) in
  if truthy (strip current_question)
  then questions ++ [strip current_question]
  else questions.

(** Lines 50-77. *)
Definition extract_questions (soup : node) : list str :=
  match find (py "div") soup with
  | Some content_div => collect_questions (find_all (py "p") content_div)
  | None => []
  end.

(** The body of the [try] of [parse_html_file]. *)
Definition parse_body (path : str) : result parsed :=
  soup <- read_soup path ;;
  name <- extract_name soup ;;
  Ok {| student_name := name;
        questions := extract_questions soup;
        file_path := path |}.

Definition parse_html_file (path : str) : Console parsed :=
  match parse_body path with
  | Ok r => ret r
  | Raise e =>
      print (py "Error parsing " ++ path ++ py ": " ++ e) ;;;
      ret {| student_name := Error_parsing_file;
             questions := [];
             file_path := path |}
  end.

(** The loop of lines 114-117. *)
Fixpoint process_files (files : list str) (results : list parsed)
    : Console (list parsed) :=
  match files with
  | [] => ret results
  | path :: rest =>
      print (py "Processing: " ++ basename path) ;;;
      result <~ parse_html_file path ;;
      process_files rest (results ++ [result])
  end.

(** Lines 104-105: the list of files the directory scan finds. *)
Definition html_files (directory_path : str) : list str :=
  glob (path_join directory_path (py "*.html"))
  ++ glob (path_join directory_path (py "*.htm")).

Definition process_directory (directory_path : str) : Console (list parsed) :=
  let files := html_files directory_path in
  match files with
  | [] =>
      print (py "No HTML files found in " ++ directory_path) ;;;
      ret []
  | _ :: _ =>
      print (py "Found " ++ str_of_nat (List.length files)
             ++ py " HTML files to process...") ;;;
      process_files (sorted files) []
  end.

End Program.

(** Line 138: [' '.join(question.split())] *)
Definition clean (question : str) : str := join (py " ") (split question).

(** Lines 134-141: the lines one result adds to [output]. *)
Definition format_result (output : list str) (result : parsed) : list str :=
  let output := output ++ [py "- " ++ student_name result] in
  let output :=
    fold_left
      (fun out iq =>
         out ++ [py "    - Question " ++ str_of_nat (fst iq) ++ py ": "
                 ++ clean (snd iq)])
      (enumerate (questions result) 1) output in
  output ++ [[]].

Definition format_output (results : list parsed) : str :=
  join [LF] (fold_left format_result results []).

End ParseQuestions.

(* ================================================================== *)
(** ** The specification's own wording

    The algorithms as the specification describes them, to be compared with
    the program's. *)

Module Spec.
Import Py Bs4 ParseQuestions.

(** A delimiter paragraph: its trimmed text is empty or a lone
    non-breaking space. *)
Definition is_delimiter (trimmed : str) : bool :=
  match trimmed with
  | [] => true
  | [c] => char_eqb c NBSP
  | _ => false
  end.

(** The delimiter-accumulator algorithm over the paragraph texts, with
    [acc] the accumulator. *)
Fixpoint accumulate (acc : str) (texts : list str) : list str :=
  match texts with
  | [] => if truthy (strip acc) then [strip acc] else []
  | t :: rest =>
      let trimmed := strip t in
      if is_delimiter trimmed then
        if truthy (strip acc)
        then strip acc :: accumulate [] rest
        else accumulate acc rest
      else
        accumulate
          (if truthy acc then acc ++ [SPACE] ++ trimmed else trimmed) rest
  end.

Definition segment (texts : list str) : list str := accumulate [] texts.

(** Collapse every run of whitespace into one space; [in_run] says that the
    previous character was whitespace. *)
Fixpoint squeeze (in_run : bool) (s : str) : str :=
  match s with
  | [] => []
  | c :: s' =>
      if isspace c
      then (if in_run then squeeze true s' else SPACE :: squeeze true s')
      else c :: squeeze false s'
  end.

(** Normalization: whitespace runs become single spaces, then the ends are
    trimmed. *)
Definition normalize (question : str) : str := strip (squeeze false question).

(** The question lines of a document, from position [i] on. *)
Fixpoint question_lines (i : nat) (qs : list str) : list str :=
  match qs with
  | [] => []
  | q :: qs' =>
      (py "    - Question " ++ str_of_nat i ++ py ": " ++ normalize q)
        :: question_lines (S i) qs'
  end.

(** The block of a document: its name line, its question lines and a blank
    line. *)
Definition block (d : parsed) : list str :=
  (py "- " ++ student_name d) :: question_lines 1 (questions d) ++ [[]].

Definition report (results : list parsed) : str :=
  join [LF] (flat_map block results).

Section Names.
Variable unicode_Nd : char -> bool.

(** The trimmed label that [Questions <int>/<int>: <label>] captures in a
    text, when the pattern matches there. *)
Definition label_of (text : str) : option str :=
  match Re.search unicode_Nd Re.name_pattern text with
  | Some (Some l) => Some (strip l)
  | _ => None
  end.

(** The text of the first [name] element, as the program reads it. *)
Definition field_text (name : str) (soup : node) : option str :=
  option_map (fun tag => strip (get_text tag)) (find name soup).

Definition label_in (name : str) (soup : node) : option str :=
  match field_text name soup with
  | Some text => label_of text
  | None => None
  end.

(** First match wins: the title, else the first h1, else the sentinel. *)
Definition first_match (soup : node) : str :=
  match label_in (py "title") soup with
  | Some l => l
  | None =>
      match label_in (py "h1") soup with
      | Some l => l
      | None => py "Unknown Student"
      end
  end.

(** The pattern matches in the text of a tag, with a label that is empty
    after trimming. *)
Definition blank_label (tag : node) : Prop :=
  label_of (get_text tag) = Some [].

(** The first [name] element supplies no label: there is none, or the
    pattern does not match in its text, or it matches with a blank label. *)
Definition no_label (name : str) (soup : node) : Prop :=
  match find name soup with
  | Some tag => blank_label tag \/ label_of (get_text tag) = None
  | None => True
  end.

End Names.

End Spec.

(** The language of a pattern: the strings it matches, whatever the order
    in which the engine tries them. *)
Module Lang.
Import Py Re.

Section Lang.
Variable unicode_Nd : char -> bool.

Definition run (a : cls) (w : str) : Prop :=
  Forall (fun c => accepts unicode_Nd a c = true) w.

Fixpoint lang (r : regex) (w : str) : Prop :=
  match r with
  | Eps => w = []
  | One a => exists c, w = [c] /\ accepts unicode_Nd a c = true
  | Star a => run a w
  | Plus a => w <> [] /\ run a w
  | Cat r1 r2 => exists w1 w2, w = w1 ++ w2 /\ lang r1 w1 /\ lang r2 w2
  | Group r' => lang r' w
  end.

End Lang.

(** The pattern in two parts: [Questions\s+\d+/\d+:] and [\s*(.+)]. *)
Definition header : regex :=
  seq [lit (py "Questions"); Plus Space; Plus Digit; lit (py "/");
       Plus Digit; lit (py ":")].

Definition label : regex := seq [Star Space; Group (Plus Dot)].

Definition COLON : char := 58%N.

(** The result of the engine when nothing follows the pattern. *)
Definition found (_ : str) (g : match_obj) : option match_obj := Some g.

End Lang.

(** Sample documents and collaborators, for concrete runs. *)
Module Samples.
Import Py Bs4 ParseQuestions.

(** No decimal digit beyond ASCII. *)
Definition ascii_digits_only (c : char) : bool := false.

Definition p_tag (text : string) : node := Tag (py "p") [Text (py text)].

Definition document (contents : list node) : node :=
  Tag (py "[document]") contents.

(** The paragraphs of the specification's example. *)
Definition example_paragraphs : list node :=
  [p_tag "Q1 line one"; p_tag ""; p_tag "Q2 part A"; p_tag "Q2 part B";
   p_tag ""].

Definition jane : node :=
  document
    [Tag (py "title") [Text (py "Questions 09/02: Jane Doe")];
     Tag (py "div") example_paragraphs].

(** A title whose label is the sentinel text, and a different h1. *)
Definition shadowed : node :=
  document
    [Tag (py "title") [Text (py "Questions 09/02: Unknown Student")];
     Tag (py "h1") [Text (py "Questions 09/02: Jane Doe")]].

(** A title with nothing after the colon but a space, and no h1. *)
Definition blank_title : node :=
  document
    [Tag (py "title") [Text (py "Questions 09/02: ")];
     Tag (py "div") [p_tag "Why?"]].

(** A container whose only paragraph is inside a nested element. *)
Definition nested_div : node :=
  Tag (py "div") [Tag (py "blockquote") [p_tag "Why?"]].

Definition nested : node := document [nested_div].

(** A container without paragraphs. *)
Definition empty_div : node := Tag (py "div") [Text (py "no questions")].

Definition no_paragraph : node :=
  document [Tag (py "title") [Text (py "Questions 09/02: Jane Doe")]; empty_div].

(** A directory of two files, the first of which cannot be read. *)
Definition sample_glob (pattern : str) : list str :=
  if str_eqb pattern (py "in/*.html")
  then [py "in/b.html"; py "in/a.html"]
  else [].

Definition sample_join (a b : str) : str := a ++ py "/" ++ b.

Definition sample_basename (path : str) : str := skipn 3 path.

Definition sample_read (path : str) : result node :=
  if str_eqb path (py "in/b.html") then Ok jane
  else Raise (py "[Errno 13] Permission denied").

(** A reader that finds the same tree at every path. *)
Definition always (soup : node) (path : str) : result node := Ok soup.

End Samples.

(* ================================================================== *)
(** ** The command line *)

Module Cli.
Import Py Bs4 ParseQuestions.

(** What [main] does to the outside, in order: a line printed, and the
    calls [os.makedirs(directory)] and
    [open(path, 'w').write(content)]. *)
Inductive effect : Type :=
| Printed (line : str)
| Makedirs (directory : str)
| Write (path content : str).

Definition Run (A : Type) : Type := (A * list effect)%type.

Definition done {A : Type} (a : A) : Run A := (a, []).

Definition say (line : str) : Run unit := (tt, [Printed line]).

Definition call (e : effect) {A : Type} (outcome : A) : Run A :=
  (outcome, [e]).

(** The prints of a computation of the program proper. *)
Definition printed {A : Type} (c : Console A) : Run A :=
  (fst c, List.map Printed (snd c)).

Definition then_run {A B : Type} (c : Run A) (k : A -> Run B) : Run B :=
  let (a, t1) := c in
  let (b, t2) := k a in
  (b, t1 ++ t2).


Definition trace {A : Type} (c : Run A) : list effect := snd c.

Notation "x <== c ;; k" := (then_run c (fun x => k))
  (at level 61, c at next level, right associativity) : prog_scope.
Notation "c >>> k" := (then_run c (fun _ => k))
  (at level 61, right associativity) : prog_scope.

Section Main.

(** The collaborators of [process_directory], and the file system as
    [main] uses it: [os.path.exists], [os.path.isdir], [os.path.abspath],
    [os.path.dirname], and the outcomes of [os.makedirs] and of writing a
    file, which may raise. *)
Variable unicode_Nd : char -> bool.
Variable read_soup : str -> result node.
Variable glob : str -> list str.
Variable path_join : str -> str -> str.
Variable basename : str -> str.
Variable path_exists : str -> bool.
Variable path_isdir : str -> bool.
Variable abspath : str -> str.
Variable dirname : str -> str.
Variable makedirs : str -> result unit.
Variable write_text : str -> str -> result unit.

(** Lines 185-191: the body of the [try], up to the write. *)
Definition write_report (output_file formatted_output : str)
    : Run (result unit) :=
  let output_dir := dirname (abspath output_file) in
  made <==
    (if truthy output_dir && negb (path_exists output_dir)
     then call (Makedirs output_dir) (makedirs output_dir)
     else done (Ok tt)) ;;
  match made with
  | Raise e => done (Raise e)
  | Ok _ =>
      call (Write output_file formatted_output)
        (write_text output_file formatted_output)
  end.

(** [main], from the parsed arguments on; its value is the exit status. *)
Definition main (directory output_file : str) : Run nat :=
  if negb (path_exists directory) then
    say (py "Error: Directory not found: " ++ directory) >>> done 1
  else if negb (path_isdir directory) then
    say (py "Error: Path is not a directory: " ++ directory) >>> done 1
  else
    results <==
      printed (process_directory unicode_Nd read_soup glob path_join
                 basename directory) ;;
    match results with
    | [] => say (py "No files processed.") >>> done 1
    | _ :: _ =>
        let formatted_output := format_output results in
        written <== write_report output_file formatted_output ;;
        match written with
        | Ok _ =>
            say (py "Successfully processed "
                 ++ str_of_nat (List.length results) ++ py " files") >>>
            say (py "Results written to: " ++ output_file) >>>
            done 0
        | Raise e =>
            say (py "Error writing to output file: " ++ e) >>> done 1
        end
    end.

End Main.

(** A call that changes the file system. *)
Definition touches (e : effect) : bool :=
  match e with
  | Printed _ => false
  | Makedirs _ | Write _ _ => true
  end.

End Cli.

(** ** Shapes of inputs, for the statements below *)

Module Shapes.
Import Py Bs4 ParseQuestions.

(** The ASCII digits. *)
Definition ascii_digit (c : char) : bool := (48 <=? c)%N && (c <=? 57)%N.

(** A word: not empty and without whitespace. *)
Definition word (w : str) : Prop :=
  w <> [] /\ Forall (fun c => isspace c = false) w.

(** A paragraph with something to read in it. *)
Definition nonblank (p : node) : bool := negb (forallb isspace (get_text p)).

(** Two results that show the same: equal names, and questions made of the
    same words. *)
Definition same_content (d1 d2 : parsed) : Prop :=
  student_name d1 = student_name d2
  /\ List.map split (questions d1) = List.map split (questions d2).

(** No [name] tag in a node or below it. *)
Definition without (name : str) (n : node) : Prop :=
  is_tag name n = false /\ find_all name n = [].

End Shapes.

(** A file system for concrete runs. *)
Module Disk.
Import Py Bs4 ParseQuestions.

Definition exists_in (path : str) : bool := str_eqb path (py "in").

Definition isdir_in (path : str) : bool := str_eqb path (py "in").

Definition abspath_root (path : str) : str := py "/" ++ path.

(** Every report goes to one directory. *)
Definition dirname_out (path : str) : str := py "/out".

Definition makedirs_ok (path : str) : result unit := Ok tt.


Definition write_denied (path content : str) : result unit :=
  Raise (py "[Errno 13] Permission denied").

End Disk.

(** ** Document order *)

Module DocumentOrder.
Import Py Bs4 Shapes.

(** [first_in name d n]: [d] is the first [name] tag below [n] in document
    order. Either it is a child of [n] after children that hold no [name]
    tag, or it is the first one below such a child, itself not a [name]
    tag. What comes after, at any level, is free. *)
Inductive first_in (name : str) (d : node) : node -> Prop :=
| first_child (tag : str) (pre post : list node) :
    Forall (without name) pre ->
    is_tag name d = true ->
    first_in name d (Tag tag (pre ++ d :: post))
| first_below (tag : str) (pre post : list node) (c : node) :
    Forall (without name) pre ->
    is_tag name c = false ->
    first_in name d c ->
    first_in name d (Tag tag (pre ++ c :: post)).

End DocumentOrder.

(** More sample documents. *)
Module Pages.
Import Py Bs4 ParseQuestions.

Definition blank_title_tag : node :=
  Tag (py "title") [Text (py "Questions 09/02: ")].

(** A title with a blank label, and an h1 with a name. *)
Definition blank_title_named_h1 : node :=
  Samples.document
    [blank_title_tag;
     Tag (py "h1") [Text (py "Questions 09/02: Jane Doe")]].

Definition questions_div : node := Tag (py "div") Samples.example_paragraphs.

Definition page_body : node :=
  Tag (py "body")
    [Tag (py "h1") [Text (py "Questions 09/02: Jane Doe")];
     questions_div;
     Samples.p_tag "Outside";
     Tag (py "div") [Samples.p_tag "Second container"]].

(** A whole page: the container is inside [html] and [body], after the
    head, and more follows it. *)
Definition page : node :=
  Samples.document
    [Tag (py "html")
       [Tag (py "head") [Tag (py "title") [Text (py "Week 2")]];
        page_body;
        Tag (py "div") [Samples.p_tag "Footer"]]].

End Pages.

(* ================================================================== *)
(** * Properties *)

Unset Implicit Arguments.

(** ** Python strings *)

Module PyFacts.
Import Py.

#[local] Arguments isspace : simpl never.

Lemma char_eqb_eq (a b : char) : char_eqb a b = true <-> a = b.
Proof. apply N.eqb_eq. Qed.

Lemma str_eqb_eq (a b : str) : str_eqb a b = true <-> a = b.
Proof.
  revert b; induction a as [|x a IH]; intros [|y b]; simpl;
    try (split; [discriminate | congruence]); try tauto.
  rewrite andb_true_iff, char_eqb_eq, IH.
  split; [intros [-> ->]; reflexivity | intros H; inversion H; auto].
Qed.

Lemma str_eqb_refl (a : str) : str_eqb a a = true.
Proof. apply str_eqb_eq; reflexivity. Qed.

Lemma truthy_true (s : str) : truthy s = true <-> s <> [].
Proof. destruct s; simpl; split; congruence. Qed.

Lemma truthy_false (s : str) : truthy s = false <-> s = [].
Proof. destruct s; simpl; split; congruence. Qed.

Lemma truthy_app_r (a b : str) : truthy b = true -> truthy (a ++ b) = true.
Proof. destruct a; simpl; auto. Qed.

(** *** [lstrip] *)

Lemma lstrip_hd (s : str) (c : char) (r : str) :
  lstrip s = c :: r -> isspace c = false.
Proof.
  induction s as [|x s IH]; simpl; [discriminate|].
  destruct (isspace x) eqn:E; auto.
  intros H; inversion H; subst; assumption.
Qed.

Lemma lstrip_all_space (s : str) :
  lstrip s = [] <-> Forall (fun c => isspace c = true) s.
Proof.
  induction s as [|x s IH]; simpl.
  - split; auto.
  - destruct (isspace x) eqn:E.
    + rewrite IH; split; [constructor; auto | inversion 1; auto].
    + split; [discriminate | inversion 1; congruence].
Qed.

Lemma lstrip_snoc (l : str) (c : char) :
  lstrip (l ++ [c]) =
  if truthy (lstrip l) then lstrip l ++ [c]
  else if isspace c then [] else [c].
Proof.
  induction l as [|a l IH]; simpl.
  - destruct (isspace c); reflexivity.
  - destruct (isspace a); [exact IH | reflexivity].
Qed.

Lemma lstrip_suffix (s : str) : exists l, s = l ++ lstrip s.
Proof.
  induction s as [|x s [l IH]]; simpl.
  - exists []; reflexivity.
  - destruct (isspace x).
    + exists (x :: l); simpl; congruence.
    + exists []; reflexivity.
Qed.

Lemma lstrip_idem (s : str) : lstrip (lstrip s) = lstrip s.
Proof.
  destruct (lstrip s) as [|c r] eqn:E; [reflexivity|].
  apply lstrip_hd in E; simpl; rewrite E; reflexivity.
Qed.

(** [lstrip] stops at the first character that is not whitespace. *)
Lemma lstrip_app_keep (a : str) (c : char) (b : str) :
  isspace c = false -> lstrip (a ++ c :: b) = lstrip (a ++ [c]) ++ b.
Proof.
  intros Hc; induction a as [|x a IH]; simpl.
  - rewrite Hc; reflexivity.
  - destruct (isspace x); [exact IH|].
    simpl; rewrite <- app_assoc; reflexivity.
Qed.

(** *** [rstrip] *)

Lemma rstrip_nil : rstrip [] = [].
Proof. reflexivity. Qed.

Lemma rstrip_cons (c : char) (x : str) :
  rstrip (c :: x) =
  if truthy (rstrip x) then c :: rstrip x
  else if isspace c then [] else [c].
Proof.
  unfold rstrip; simpl rev at 2.
  rewrite lstrip_snoc.
  destruct (lstrip (rev x)) as [|a r] eqn:E; simpl truthy.
  - simpl; destruct (isspace c); reflexivity.
  - assert (T : truthy (rev (a :: r)) = true).
    { simpl; apply truthy_app_r; reflexivity. }
    change (rev r ++ [a]) with (rev (a :: r)).
    rewrite T, rev_app_distr; reflexivity.
Qed.

Lemma rstrip_keep (c : char) (x : str) :
  isspace c = false -> rstrip (c :: x) = c :: rstrip x.
Proof.
  intros Hc; rewrite rstrip_cons, Hc.
  destruct (rstrip x); reflexivity.
Qed.

Lemma rstrip_all_space (s : str) :
  rstrip s = [] <-> Forall (fun c => isspace c = true) s.
Proof.
  induction s as [|x s IH].
  - split; auto.
  - rewrite rstrip_cons.
    destruct (rstrip s) as [|a r] eqn:E; simpl truthy.
    + destruct (isspace x) eqn:Ex.
      * split; auto. intros _; constructor; auto. apply IH; reflexivity.
      * split; [discriminate | inversion 1; congruence].
    + split; [discriminate|].
      inversion 1; subst.
      assert (a :: r = []) by (apply IH; assumption). discriminate.
Qed.

Lemma rstrip_snoc_keep (a : str) (c : char) :
  isspace c = false -> rstrip (a ++ [c]) = a ++ [c].
Proof.
  intros Hc; unfold rstrip.
  rewrite rev_app_distr; simpl; rewrite Hc.
  change (c :: rev a) with (rev [c] ++ rev a).
  rewrite <- rev_app_distr, rev_involutive; reflexivity.
Qed.

Lemma rstrip_app_space (a w : str) :
  Forall (fun c => isspace c = true) w -> rstrip (a ++ w) = rstrip a.
Proof.
  intros Hw; unfold rstrip; f_equal.
  rewrite rev_app_distr.
  assert (Hr : Forall (fun c => isspace c = true) (rev w)).
  { apply Forall_forall; intros c Hin; apply in_rev in Hin.
    revert c Hin; apply Forall_forall; assumption. }
  induction Hr as [|c l Hc _ IH]; simpl; [reflexivity|].
  rewrite Hc; exact IH.
Qed.

(** The last character of a right-stripped string is not whitespace. *)
Lemma rstrip_last (s a : str) (c : char) :
  rstrip s = a ++ [c] -> isspace c = false.
Proof.
  unfold rstrip; intros H.
  assert (E : lstrip (rev s) = c :: rev a).
  { rewrite <- (rev_involutive (lstrip (rev s))), H, rev_app_distr.
    reflexivity. }
  eapply lstrip_hd; eassumption.
Qed.

Lemma rstrip_prefix (s : str) : exists w, s = rstrip s ++ w.
Proof.
  unfold rstrip. destruct (lstrip_suffix (rev s)) as [l E].
  exists (rev l).
  rewrite <- rev_app_distr, <- E, rev_involutive; reflexivity.
Qed.

(** *** [strip] *)

Lemma strip_nil : strip [] = [].
Proof. reflexivity. Qed.

Lemma strip_empty_iff (s : str) :
  strip s = [] <-> Forall (fun c => isspace c = true) s.
Proof.
  unfold strip; rewrite rstrip_all_space.
  split.
  - intros H. apply lstrip_all_space.
    destruct (lstrip s) as [|c r] eqn:E; [reflexivity|].
    apply lstrip_hd in E. inversion H; congruence.
  - intros H. apply lstrip_all_space in H. rewrite H; constructor.
Qed.

Lemma strip_keep_hd (c : char) (s : str) :
  isspace c = false -> exists r, strip (c :: s) = c :: r.
Proof.
  intros Hc; unfold strip; simpl; rewrite Hc, rstrip_keep by assumption.
  eexists; reflexivity.
Qed.

Lemma strip_last (s a : str) (c : char) :
  strip s = a ++ [c] -> isspace c = false.
Proof. unfold strip; apply rstrip_last. Qed.

Lemma strip_hd (s : str) (c : char) (r : str) :
  strip s = c :: r -> isspace c = false.
Proof.
  unfold strip; intros H.
  destruct (lstrip s) as [|x l] eqn:E; [discriminate|].
  pose proof (@lstrip_hd _ _ _ E) as Hx.
  rewrite rstrip_keep in H by assumption.
  inversion H; subst; assumption.
Qed.

(** A trimmed string is a piece of the string it was trimmed from. *)
Lemma strip_infix (s : str) : exists l w, s = l ++ strip s ++ w.
Proof.
  destruct (lstrip_suffix s) as [l El].
  destruct (rstrip_prefix (lstrip s)) as [w Ew].
  exists l, w. unfold strip. rewrite <- Ew; exact El.
Qed.

(** Trimming a trimmed string changes nothing. *)
Lemma strip_idem (s : str) : strip (strip s) = strip s.
Proof.
  destruct (strip s) as [|c r] eqn:E; [reflexivity|].
  pose proof (@strip_hd _ _ _ E) as Hc.
  destruct (@exists_last _ (c :: r)) as (a & z & Ea); [discriminate|].
  rewrite Ea in E. pose proof (@strip_last _ _ _ E) as Hz.
  rewrite Ea. unfold strip.
  assert (L : lstrip (a ++ [z]) = a ++ [z]).
  { rewrite <- Ea; simpl; rewrite Hc; reflexivity. }
  rewrite L; apply rstrip_snoc_keep; assumption.
Qed.

End PyFacts.

(* ================================================================== *)
(** ** The regular-expression engine *)

Module ReFacts.
Import Py Re Lang PyFacts.

#[local] Arguments isspace : simpl never.

Section Engine.
Variable unicode_Nd : char -> bool.

#[local] Abbreviation accepts := (accepts unicode_Nd).
#[local] Abbreviation lang := (lang unicode_Nd).
#[local] Abbreviation run := (run unicode_Nd).
#[local] Abbreviation exec := (@exec unicode_Nd).
#[local] Abbreviation match_here := (match_here unicode_Nd).
#[local] Abbreviation search := (search unicode_Nd).

(** *** The engine finds only strings of the language *)

Lemma star_sound (R : Type) (p : char -> bool) (s : str)
    (k : str -> option R) (res : R) :
  star p s k = Some res ->
  exists w s', s = w ++ s' /\ Forall (fun c => p c = true) w /\ k s' = Some res.
Proof.
  induction s as [|c s IH]; simpl.
  - intros H; exists [], []; auto.
  - destruct (p c) eqn:Hp.
    + destruct (star p s k) as [r|] eqn:Hs.
      * intros H; inversion H; subst r.
        destruct (IH eq_refl) as (w & s' & -> & Hw & Hk).
        exists (c :: w), s'; repeat split; auto.
      * intros H; exists [], (c :: s); auto.
    + intros H; exists [], (c :: s); auto.
Qed.

Lemma one_sound (R : Type) (p : char -> bool) (s : str)
    (k : str -> option R) (res : R) :
  one p s k = Some res ->
  exists c s', s = c :: s' /\ p c = true /\ k s' = Some res.
Proof.
  destruct s as [|c s]; simpl; [discriminate|].
  destruct (p c) eqn:Hp; [|discriminate].
  intros H; exists c, s; auto.
Qed.

Lemma exec_sound (R : Type) (r : regex) :
  forall (s : str) (g : match_obj) (k : str -> match_obj -> option R)
         (res : R),
    exec r s g k = Some res ->
    exists w s' g', s = w ++ s' /\ lang r w /\ k s' g' = Some res.
Proof.
  induction r as [|a|a|a|r1 IH1 r2 IH2|r IH]; intros s g k res H; simpl in H.
  - exists [], s, g; simpl; auto.
  - apply one_sound in H; destruct H as (c & s' & -> & Hc & Hk).
    exists [c], s', g; simpl; eauto.
  - apply star_sound in H; destruct H as (w & s' & -> & Hw & Hk).
    exists w, s', g; simpl; auto.
  - apply one_sound in H; destruct H as (c & s1 & -> & Hc & H).
    apply star_sound in H; destruct H as (w & s' & -> & Hw & Hk).
    exists (c :: w), s', g; simpl; repeat split; auto.
    + discriminate.
    + constructor; assumption.
  - apply IH1 in H; destruct H as (w1 & s1 & g1 & -> & L1 & H).
    apply IH2 in H; destruct H as (w2 & s2 & g2 & -> & L2 & H).
    exists (w1 ++ w2), s2, g2; rewrite app_assoc; simpl; eauto 8.
  - apply IH in H; destruct H as (w & s' & g' & -> & L & H).
    eexists w, s', _; simpl; eauto.
Qed.

(** *** The engine finds a match whenever the language has one *)

Lemma star_complete (R : Type) (p : char -> bool) (w s' : str)
    (k : str -> option R) :
  Forall (fun c => p c = true) w -> k s' <> None ->
  star p (w ++ s') k <> None.
Proof.
  intros Hw Hk; induction Hw as [|c w Hc _ IH]; simpl.
  - destruct s' as [|c s]; simpl; auto.
    destruct (p c); auto.
    destruct (star p s k); [discriminate | assumption].
  - rewrite Hc. destruct (star p (w ++ s') k); [discriminate | contradiction].
Qed.

Lemma exec_complete (R : Type) (r : regex) :
  forall (w s' : str) (g : match_obj) (k : str -> match_obj -> option R),
    lang r w -> (forall g', k s' g' <> None) ->
    exec r (w ++ s') g k <> None.
Proof.
  induction r as [|a|a|a|r1 IH1 r2 IH2|r IH]; intros w s' g k L Hk;
    simpl in L; simpl.
  - subst w; apply Hk.
  - destruct L as (c & -> & Hc); simpl; rewrite Hc; apply Hk.
  - apply star_complete; auto.
  - destruct L as (Hne & Hw). destruct Hw as [|c w Hc Hw]; [congruence|].
    simpl; rewrite Hc. apply star_complete; auto.
  - destruct L as (w1 & w2 & -> & L1 & L2).
    rewrite <- app_assoc. apply IH1; auto.
  - apply IH; auto.
Qed.

(** A match at the head of [u] is still one when [u] is extended. *)
Lemma match_here_extend (r : regex) (u z : str) :
  match_here r u <> None -> match_here r (u ++ z) <> None.
Proof.
  unfold Re.match_here; intros H.
  destruct (exec r u None _) as [m|] eqn:E; [|congruence].
  apply exec_sound in E; destruct E as (w & s' & g' & -> & L & _).
  rewrite <- app_assoc. apply exec_complete; [assumption | discriminate].
Qed.

(** *** [search] returns the leftmost match *)

Lemma search_leftmost (r : regex) (s : str) (m : match_obj) :
  search r s = Some m ->
  exists x t,
    s = x ++ t /\ match_here r t = Some m /\
    forall p z, x = p ++ z -> z <> [] -> match_here r (z ++ t) = None.
Proof.
  induction s as [|c s IH]; simpl.
  - destruct (match_here r []) as [m'|] eqn:E; [|discriminate].
    intros H; inversion H; subst m'.
    exists [], []; repeat split; auto.
    intros p z Hp Hz; destruct p, z; simpl in Hp; congruence.
  - destruct (match_here r (c :: s)) as [m'|] eqn:E.
    + intros H; inversion H; subst m'.
      exists [], (c :: s); repeat split; auto.
      intros p z Hp Hz; destruct p, z; simpl in Hp; congruence.
    + intros H; destruct (IH H) as (x & t & -> & Ht & Hleft).
      exists (c :: x), t; repeat split; auto.
      intros p z Hp Hz. destruct p as [|c' p]; simpl in Hp.
      * subst z; exact E.
      * inversion Hp; subst. eapply Hleft; eauto.
Qed.

Lemma search_none (r : regex) (s : str) :
  search r s = None -> forall x t, s = x ++ t -> match_here r t = None.
Proof.
  induction s as [|c s IH]; simpl.
  - destruct (match_here r []) eqn:E; [discriminate|].
    intros _ x t Hs. symmetry in Hs; apply app_eq_nil in Hs.
    destruct Hs as [_ ->]; assumption.
  - destruct (match_here r (c :: s)) eqn:E; [discriminate|].
    intros H x t Hs. destruct x as [|c' x]; simpl in Hs.
    + subst t; assumption.
    + inversion Hs; subst. eapply IH; eauto.
Qed.

(** A text without a match has no match in any of its pieces. *)
Lemma search_infix_none (r : regex) (l s w : str) :
  search r (l ++ s ++ w) = None -> search r s = None.
Proof.
  intros H. destruct (search r s) as [m|] eqn:E; [exfalso|reflexivity].
  apply search_leftmost in E. destruct E as (x & t & -> & Ht & _).
  assert (N : match_here r (t ++ w) = None).
  { apply (search_none r _ H (l ++ x)). rewrite <- !app_assoc; reflexivity. }
  revert N. apply match_here_extend. congruence.
Qed.

End Engine.

End ReFacts.

(* ================================================================== *)
(** ** The name pattern *)

Module NamePattern.
Import Py Re Lang PyFacts ReFacts.

#[local] Arguments isspace : simpl never.

Section Pattern.
Variable unicode_Nd : char -> bool.

#[local] Abbreviation accepts := (accepts unicode_Nd).
#[local] Abbreviation lang := (lang unicode_Nd).
#[local] Abbreviation run := (run unicode_Nd).
#[local] Abbreviation exec := (@exec unicode_Nd).
#[local] Abbreviation match_here := (match_here unicode_Nd).
#[local] Abbreviation search := (search unicode_Nd).

(** The engine runs the header, then the label. *)
Lemma match_here_split (s : str) :
  match_here name_pattern s =
  exec header s None (fun s' g' => exec label s' g' found).
Proof. reflexivity. Qed.

(** *** The label part [\s*(.+)] *)

(** The text of a group is what the engine consumed inside it. *)
Lemma captured_text (w s' : str) :
  firstn (List.length (w ++ s') - List.length s') (w ++ s') = w.
Proof.
  replace (List.length (w ++ s') - List.length s') with (List.length w)
    by (rewrite length_app; lia).
  rewrite firstn_app, firstn_all, Nat.sub_diag; simpl.
  apply app_nil_r.
Qed.

(** [(.+)] at the head of [s]: the group is the line that starts there. *)
Lemma group_line (s : str) (g m : match_obj) :
  exec (seq [Group (Plus Dot)]) s g found = Some m ->
  exists c rest cap, s = c :: rest /\ m = Some (c :: cap).
Proof.
  cbn [Re.exec seq fold_right]; intros H.
  apply one_sound in H; destruct H as (c & s1 & -> & Hc & H).
  apply star_sound in H; destruct H as (w & s2 & -> & Hw & H).
  unfold found in H.
  change (c :: w ++ s2) with ((c :: w) ++ s2) in H.
  rewrite captured_text in H.
  exists c, (w ++ s2), w; split; congruence.
Qed.

Lemma group_line_some (c : char) (rest : str) (g : match_obj) :
  isspace c = false ->
  exec (seq [Group (Plus Dot)]) (c :: rest) g found <> None.
Proof.
  intros Hc.
  change (c :: rest) with ([c] ++ rest).
  apply exec_complete; [|discriminate].
  simpl. exists [c], []; repeat split; auto; try discriminate.
  constructor; [|constructor].
  simpl. destruct (char_eqb c LF) eqn:E; [|reflexivity].
  apply char_eqb_eq in E; subst c. discriminate.
Qed.

Section GreedySpace.
Variable K : str -> option match_obj.
Hypothesis K_nonspace :
  forall c rest, isspace c = false -> K (c :: rest) <> None.

(** When every way of sharing out the whitespace fails, the input was
    whitespace to its end. *)
Lemma star_space_none (s : str) :
  star isspace s K = None -> Forall (fun c => isspace c = true) s.
Proof.
  induction s as [|c s IH]; simpl; [constructor|].
  destruct (isspace c) eqn:Hc.
  - destruct (star isspace s K) eqn:Hs; [discriminate|].
    intros _; constructor; auto.
  - intros H; exfalso; eapply K_nonspace; eassumption.
Qed.

(** Greedy [\s*]: what follows starts at the first character that is not
    whitespace, unless the input is whitespace to its end. *)
Lemma star_space_cases (s : str) (m : match_obj) :
  star isspace s K = Some m ->
  exists s',
    K s' = Some m /\
    ((exists c rest, s' = c :: rest /\ isspace c = false)
     \/ Forall (fun c => isspace c = true) s).
Proof.
  induction s as [|c s IH]; simpl.
  - intros H; exists []; auto.
  - destruct (isspace c) eqn:Hc.
    + destruct (star isspace s K) as [r|] eqn:Hs.
      * intros H; inversion H; subst r.
        destruct (IH eq_refl) as (s' & Hk & [Hl | Hr]).
        -- exists s'; auto.
        -- exists s'; split; auto.
      * intros H; exists (c :: s); split; auto.
        right; constructor; auto. apply star_space_none; assumption.
    + intros H; exists (c :: s); split; eauto.
Qed.

End GreedySpace.

(** The group of a match starts with a character that is not whitespace,
    unless everything after the header is whitespace. *)
Lemma label_result (s : str) (g m : match_obj) :
  exec label s g found = Some m ->
  exists c cap,
    m = Some (c :: cap) /\ s <> [] /\
    (isspace c = false \/ Forall (fun x => isspace x = true) s).
Proof.
  intros H.
  assert (Hne : s <> []).
  { intros ->.
    change (exec label [] g found)
      with (exec (seq [Group (Plus Dot)]) [] g found) in H.
    apply group_line in H; destruct H as (c & rest & cap & E & _).
    discriminate. }
  change (exec label s g found)
    with (star isspace s (fun s' => exec (seq [Group (Plus Dot)]) s' g found))
    in H.
  apply star_space_cases in H;
    [|intros c rest Hc; apply group_line_some; assumption].
  destruct H as (s' & Hk & Hcase).
  apply group_line in Hk; destruct Hk as (c & rest & cap & -> & ->).
  exists c, cap; split; [reflexivity|]. split; [assumption|].
  destruct Hcase as [(c' & rest' & E & Hc) | Hall].
  - inversion E; subst; auto.
  - right; auto.
Qed.

(** The group always takes part in a match of the pattern. *)
Lemma match_here_group (s : str) (m : match_obj) :
  match_here name_pattern s = Some m ->
  exists w s' c cap,
    s = w ++ s' /\ lang header w /\ m = Some (c :: cap) /\ s' <> [] /\
    (isspace c = false \/ Forall (fun x => isspace x = true) s').
Proof.
  rewrite match_here_split; intros H.
  apply exec_sound in H; destruct H as (w & s' & g' & -> & Lw & H).
  apply label_result in H; destruct H as (c & cap & -> & Hne & Hcase).
  exists w, s', c, cap; auto.
Qed.

Lemma search_group (s : str) (m : match_obj) :
  search name_pattern s = Some m -> exists c cap, m = Some (c :: cap).
Proof.
  intros H. apply search_leftmost in H.
  destruct H as (x & t & _ & H & _).
  apply match_here_group in H.
  destruct H as (w & s' & c & cap & _ & _ & -> & _); eauto.
Qed.

(** On a trimmed text the label of a match is never blank. *)
Lemma search_stripped_label (x : str) (m : match_obj) :
  search name_pattern (strip x) = Some m ->
  exists cap, m = Some cap /\ strip cap <> [].
Proof.
  intros H. apply search_leftmost in H.
  destruct H as (pre & t & Hx & H & _).
  apply match_here_group in H.
  destruct H as (w & s' & c & cap & -> & _ & -> & Hne & [Hc | Hall]).
  - exists (c :: cap); split; [reflexivity|].
    destruct (@strip_keep_hd c cap Hc) as (r & ->); discriminate.
  - exfalso.
    destruct (@exists_last _ s' Hne) as (a & z & ->).
    assert (Hz : isspace z = true).
    { rewrite Forall_forall in Hall. apply Hall, in_or_app; right; left.
      reflexivity. }
    rewrite !app_assoc in Hx. apply strip_last in Hx. congruence.
Qed.

(** *** The header part [Questions\s+\d+/\d+:] *)

Lemma lang_lit (s w : str) : lang (lit s) w -> w = s.
Proof.
  revert w; induction s as [|c s IH]; intros w; simpl; [auto|].
  intros (w1 & w2 & -> & (c' & -> & Hc) & L).
  apply char_eqb_eq in Hc; subst c'. simpl; f_equal. apply IH; exact L.
Qed.

Lemma run_not_in (a : cls) (w : str) (c : char) :
  run a w -> accepts a c = false -> ~ In c w.
Proof.
  intros Hw Hc Hin. unfold Lang.run in Hw; rewrite Forall_forall in Hw.
  apply Hw in Hin. congruence.
Qed.

(** The header ends with its only colon. *)
Lemma header_colon (w : str) :
  lang header w -> exists w0, w = w0 ++ [COLON] /\ ~ In COLON w0.
Proof.
  unfold header; cbn [seq fold_right Lang.lang].
  intros (w1 & r1 & -> & L1 & w2 & r2 & -> & [_ L2] & w3 & r3 & -> & [_ L3]
          & w4 & r4 & -> & L4 & w5 & r5 & -> & [_ L5] & w6 & r6 & -> & L6
          & ->).
  apply lang_lit in L1, L4, L6; subst w1 w4 w6.
  exists (py "Questions" ++ w2 ++ w3 ++ py "/" ++ w5); split.
  - rewrite app_nil_r, <- !app_assoc; reflexivity.
  - rewrite !in_app_iff. intros [H | [H | [H | [H | H]]]].
    + vm_compute in H; intuition discriminate.
    + revert H; eapply run_not_in; [eassumption | reflexivity].
    + revert H; eapply run_not_in; [eassumption | reflexivity].
    + vm_compute in H; intuition discriminate.
    + revert H; eapply run_not_in; [eassumption | reflexivity].
Qed.

Lemma colon_last (w0 a b : str) (c : char) :
  w0 ++ [c] = a ++ c :: b -> b <> [] -> In c w0.
Proof.
  intros E Hb. destruct (@exists_last _ b Hb) as (b' & e & ->).
  change (a ++ c :: b' ++ [e]) with (a ++ (c :: b') ++ [e]) in E.
  rewrite app_assoc in E. apply app_inj_tail in E; destruct E as [-> _].
  apply in_or_app; right; left; reflexivity.
Qed.

(** No match starts inside a header that ends the text. *)
Lemma no_match_in_header (w z u : str) :
  lang header w -> w = z ++ u -> match_here name_pattern u = None.
Proof.
  intros Lw E.
  destruct (match_here name_pattern u) as [m|] eqn:Hu; [exfalso|reflexivity].
  apply match_here_group in Hu.
  destruct Hu as (hw & s'' & c & cap & -> & Lh & _ & Hne & _).
  apply header_colon in Lw; destruct Lw as (w0 & -> & Hw0).
  apply header_colon in Lh; destruct Lh as (h0 & -> & _).
  apply Hw0. apply (@colon_last w0 (z ++ h0) s'' COLON); [|assumption].
  rewrite E, <- !app_assoc; reflexivity.
Qed.

(** *** A blank label *)

(** Trimming a text that ends with [c] and whitespace. *)
Lemma strip_space_tail (a : str) (c : char) (s' : str) :
  isspace c = false -> Forall (fun x => isspace x = true) s' ->
  exists l y, a = l ++ y /\ strip (a ++ c :: s') = y ++ [c].
Proof.
  intros Hc Hs. unfold strip.
  rewrite lstrip_app_keep, rstrip_app_space by assumption.
  rewrite lstrip_snoc, Hc.
  destruct (lstrip_suffix a) as (l & El).
  destruct (lstrip a) as [|x y] eqn:Ea; simpl truthy; cbv iota.
  - exists a, []; split; [rewrite app_nil_r; reflexivity|].
    apply (@rstrip_snoc_keep [] c Hc).
  - exists l, (x :: y); split; [assumption|].
    apply rstrip_snoc_keep; assumption.
Qed.

(** When the pattern finds in a text a label that is blank once trimmed,
    the trimmed text has no match at all. *)
Lemma search_blank_label (raw cap : str) :
  search name_pattern raw = Some (Some cap) -> strip cap = [] ->
  search name_pattern (strip raw) = None.
Proof.
  intros H Hblank. apply search_leftmost in H.
  destruct H as (x & t & -> & Ht & Hleft).
  pose proof Ht as Hg. apply match_here_group in Hg.
  destruct Hg as (w & s' & c & cap' & -> & Lw & Ecap & Hne & [Hc | Hall]).
  { inversion Ecap; subst cap.
    destruct (@strip_keep_hd c cap' Hc) as (r & E); congruence. }
  destruct (header_colon _ Lw) as (w0 & Ew & Hw0).
  assert (Hstrip : exists l y, x ++ w0 = l ++ y
                               /\ strip (x ++ w ++ s') = y ++ [COLON]).
  { destruct (@strip_space_tail (x ++ w0) COLON s' eq_refl Hall)
      as (l & y & E1 & E2).
    exists l, y; split; [assumption|].
    rewrite <- E2, Ew, <- !app_assoc; reflexivity. }
  destruct Hstrip as (l & y & Exw & ->).
  destruct (search name_pattern (y ++ [COLON])) as [m'|] eqn:Hs;
    [exfalso|reflexivity].
  apply search_leftmost in Hs. destruct Hs as (p & u & Eu & Hu & _).
  assert (E : x ++ w = (l ++ p) ++ u).
  { rewrite Ew, app_assoc, Exw, <- !app_assoc. f_equal.
    rewrite Eu; reflexivity. }
  apply app_eq_app in E.
  destruct E as (z & [[Ex Ez] | [_ Ez]]).
  - destruct z as [|c0 z].
    + rewrite (@no_match_in_header w [] u Lw) in Hu by (symmetry; exact Ez).
      discriminate.
    + assert (N : match_here name_pattern ((c0 :: z) ++ w ++ s') = None).
      { eapply Hleft; [exact Ex | discriminate]. }
      assert (M : match_here name_pattern (u ++ s') <> None).
      { apply match_here_extend; congruence. }
      rewrite Ez, <- app_assoc in M. contradiction.
  - rewrite (@no_match_in_header w z u Lw Ez) in Hu. discriminate.
Qed.

End Pattern.

End NamePattern.

(* ================================================================== *)
(** ** Question segmentation *)

Module Segmentation.
Import Py Bs4 ParseQuestions PyFacts.

#[local] Arguments isspace : simpl never.
#[local] Arguments strip : simpl never.

Lemma is_delimiter_test (text : str) :
  negb (truthy text) || str_eqb text [NBSP] = Spec.is_delimiter text.
Proof.
  destruct text as [|c [|d t]]; simpl; auto.
  - apply andb_true_r.
  - apply andb_false_r.
Qed.

(** The loop of the program and the accumulator of the specification go
    through the same states. *)
Lemma loop_accumulate (paragraphs : list node) :
  forall (current_question : str) (questions : list str),
    (let (cur, out) :=
       fold_left paragraph_step paragraphs (current_question, questions) in
     if truthy (strip cur) then out ++ [strip cur] else out)
    = questions
      ++ Spec.accumulate current_question (List.map get_text paragraphs).
Proof.
  induction paragraphs as [|p ps IH]; intros cur out; simpl.
  - destruct (truthy (strip cur)); [reflexivity | symmetry; apply app_nil_r].
  - rewrite is_delimiter_test.
    destruct (Spec.is_delimiter (strip (get_text p))).
    + destruct (truthy (strip cur)).
      * rewrite IH, <- app_assoc; reflexivity.
      * apply IH.
    + destruct (truthy cur); apply IH.
Qed.

Lemma collect_questions_segment (paragraphs : list node) :
  collect_questions paragraphs = Spec.segment (List.map get_text paragraphs).
Proof.
  unfold collect_questions, Spec.segment.
  change (Spec.accumulate [] (List.map get_text paragraphs))
    with ([] ++ Spec.accumulate [] (List.map get_text paragraphs)).
  rewrite <- loop_accumulate; reflexivity.
Qed.

Lemma accumulate_nonempty (texts : list str) :
  forall acc, Forall (fun q => q <> []) (Spec.accumulate acc texts).
Proof.
  induction texts as [|t rest IH]; intros acc; simpl.
  - destruct (truthy (strip acc)) eqn:E; constructor; auto.
    apply truthy_true; assumption.
  - destruct (Spec.is_delimiter (strip t)); [|apply IH].
    destruct (truthy (strip acc)) eqn:E; [|apply IH].
    constructor; [apply truthy_true; assumption | apply IH].
Qed.

(** C1. For every sequence of paragraphs of the first container, the
    questions of the program are those of the delimiter-accumulator
    algorithm run on the paragraph texts: trim each text; on a delimiter
    (empty, or a lone non-breaking space) push the trimmed accumulator if it
    is not empty and reset it; otherwise append the text, after a single
    space unless the accumulator is empty; at the end push what is left.
    The paragraphs "Q1 line one", "", "Q2 part A", "Q2 part B", "" give
    "Q1 line one" and "Q2 part A Q2 part B". *)
Theorem questions_are_accumulated :
  (forall paragraphs,
     collect_questions paragraphs
     = Spec.segment (List.map get_text paragraphs))
  /\ (forall soup content_div,
        find (py "div") soup = Some content_div ->
        extract_questions soup
        = Spec.segment
            (List.map get_text (find_all (py "p") content_div)))
  /\ collect_questions Samples.example_paragraphs
     = [py "Q1 line one"; py "Q2 part A Q2 part B"].
Proof.
  split; [exact collect_questions_segment | split].
  - intros soup content_div H. unfold extract_questions; rewrite H.
    apply collect_questions_segment.
  - reflexivity.
Qed.

Lemma questions_are_accumulated_witness :
  extract_questions Samples.jane
  = Spec.segment
      (List.map get_text
         (find_all (py "p") (Tag (py "div") Samples.example_paragraphs))).
Proof.
  apply (proj1 (proj2 questions_are_accumulated)).
  reflexivity.
Defined.

Lemma collect_questions_nonempty (paragraphs : list node) :
  Forall (fun q => q <> []) (collect_questions paragraphs).
Proof. rewrite collect_questions_segment; apply accumulate_nonempty. Qed.

Lemma extract_questions_nonempty (soup : node) :
  Forall (fun q => q <> []) (extract_questions soup).
Proof.
  unfold extract_questions. destruct (find (py "div") soup).
  - apply collect_questions_nonempty.
  - constructor.
Qed.

End Segmentation.

(* ================================================================== *)
(** ** The report *)

Module Formatting.
Import Py Bs4 ParseQuestions PyFacts.

#[local] Arguments isspace : simpl never.

(** *** Whitespace normalization *)

Lemma split_from_nonempty (s : str) :
  forall cur, Forall (fun w => w <> []) (split_from cur s).
Proof.
  induction s as [|c s IH]; intros cur; simpl.
  - destruct (truthy cur) eqn:E; constructor; auto.
    apply truthy_true; assumption.
  - destruct (isspace c); [|apply IH].
    destruct (truthy cur) eqn:E; [|apply IH].
    constructor; [apply truthy_true; assumption | apply IH].
Qed.

Lemma join_words_truthy (sep : str) (l : list str) :
  Forall (fun w => w <> []) l -> l <> [] -> truthy (join sep l) = true.
Proof.
  intros Hl Hne. destruct l as [|x l]; [congruence|].
  inversion Hl as [|? ? Hx _]; subst.
  destruct x as [|c x]; [congruence|].
  destruct l; reflexivity.
Qed.

Lemma lstrip_squeeze (s : str) :
  lstrip (Spec.squeeze true s) = Spec.squeeze true s.
Proof.
  induction s as [|c s IH]; simpl; [reflexivity|].
  destruct (isspace c) eqn:E; [exact IH|].
  simpl; rewrite E; reflexivity.
Qed.

Lemma lstrip_squeeze_false (s : str) :
  lstrip (Spec.squeeze false s) = Spec.squeeze true s.
Proof.
  destruct s as [|c s]; simpl; [reflexivity|].
  destruct (isspace c) eqn:E; simpl.
  - change (isspace SPACE) with true; cbv iota. apply lstrip_squeeze.
  - rewrite E; reflexivity.
Qed.

(** The words of [split], joined by single spaces, are the text with its
    whitespace runs collapsed and its end trimmed. *)
Lemma join_split_from (s : str) :
  join [SPACE] (split_from [] s) = rstrip (Spec.squeeze true s)
  /\ forall cur, cur <> [] ->
       join [SPACE] (split_from cur s)
       = cur ++ rstrip (Spec.squeeze false s).
Proof.
  induction s as [|c s [IH0 IH1]]; simpl.
  - split; [reflexivity|].
    intros cur Hc. apply truthy_true in Hc; rewrite Hc.
    rewrite rstrip_nil, app_nil_r; reflexivity.
  - destruct (isspace c) eqn:E.
    + split; [exact IH0|].
      intros cur Hc. apply truthy_true in Hc; rewrite Hc.
      rewrite rstrip_cons. change (isspace SPACE) with true; cbv iota.
      rewrite <- IH0.
      destruct (split_from [] s) as [|w ws] eqn:Es.
      * simpl; rewrite app_nil_r; reflexivity.
      * assert (T : truthy (join [SPACE] (w :: ws)) = true).
        { apply join_words_truthy; [|discriminate].
          rewrite <- Es; apply split_from_nonempty. }
        rewrite T. reflexivity.
    + split.
      * rewrite rstrip_keep by assumption.
        apply (IH1 [c]); discriminate.
      * intros cur Hc. rewrite rstrip_keep by assumption.
        rewrite IH1 by (destruct cur; discriminate).
        rewrite <- app_assoc; reflexivity.
Qed.

Lemma clean_normalize (question : str) :
  clean question = Spec.normalize question.
Proof.
  unfold clean, Spec.normalize, split, strip.
  rewrite lstrip_squeeze_false.
  apply (proj1 (join_split_from question)).
Qed.

(** *** The lines of the report *)

Lemma question_loop (qs : list str) :
  forall (i : nat) (output : list str),
    fold_left
      (fun out iq =>
         out ++ [py "    - Question " ++ str_of_nat (fst iq) ++ py ": "
                 ++ clean (snd iq)])
      (combine (seq i (List.length qs)) qs) output
    = output ++ Spec.question_lines i qs.
Proof.
  induction qs as [|q qs IH]; intros i output; simpl.
  - symmetry; apply app_nil_r.
  - rewrite IH, <- app_assoc, clean_normalize; reflexivity.
Qed.

Lemma format_result_block (output : list str) (result : parsed) :
  format_result output result = output ++ Spec.block result.
Proof.
  unfold format_result, enumerate, Spec.block.
  rewrite question_loop, <- !app_assoc; reflexivity.
Qed.

Lemma format_loop (results : list parsed) :
  forall output,
    fold_left format_result results output
    = output ++ flat_map Spec.block results.
Proof.
  induction results as [|r rs IH]; intros output; simpl.
  - symmetry; apply app_nil_r.
  - rewrite IH, format_result_block, <- app_assoc; reflexivity.
Qed.

(** C5. The report is the newline-joined sequence of the blocks of the
    documents, in order: the line "- <name>", then for the question at
    1-based position i the line "    - Question <i>: <normalized question>",
    then a blank line, also after the last document. Normalization
    collapses whitespace runs (newlines included) to single spaces and trims
    both ends: "line one\n   line two" is rendered "line one line two". *)
Theorem format_output_report :
  (forall results, format_output results = Spec.report results)
  /\ (forall question, clean question = Spec.normalize question)
  /\ clean (py "line one" ++ [LF] ++ py "   line two")
     = py "line one line two".
Proof.
  split; [|split].
  - intros results. unfold format_output, Spec.report.
    rewrite format_loop; reflexivity.
  - exact clean_normalize.
  - reflexivity.
Qed.

(** C9. Formatting is a function of the batch result alone: two calls on
    identical results give identical text. *)
Theorem format_output_deterministic (results1 results2 : list parsed) :
  results1 = results2 -> format_output results1 = format_output results2.
Proof. intros ->; reflexivity. Qed.

Lemma format_output_deterministic_witness :
  format_output [mk_parsed (py "Jane Doe") [py "Why?"] (py "a.html")]
  = format_output [mk_parsed (py "Jane Doe") [py "Why?"] (py "a.html")].
Proof. apply format_output_deterministic; reflexivity. Defined.

End Formatting.

(* ================================================================== *)
(** ** [sorted] *)

Module SortFacts.
Import Py.

Lemma str_leb_total (a : str) :
  forall b, str_leb a b = false -> str_leb b a = true.
Proof.
  induction a as [|x a IH]; intros [|y b]; simpl; try congruence.
  intros H. apply orb_false_iff in H; destruct H as [Hlt H].
  apply N.ltb_ge in Hlt.
  destruct (N.eqb_spec x y) as [->|Hne].
  - simpl in H. rewrite N.eqb_refl, (IH _ H), orb_true_r; reflexivity.
  - assert (L : (y <? x)%N = true) by (apply N.ltb_lt; lia).
    rewrite L; reflexivity.
Qed.

Lemma insert_sorted_perm (x : str) (l : list str) :
  Permutation (x :: l) (insert_sorted x l).
Proof.
  induction l as [|y l IH]; simpl; [reflexivity|].
  destruct (str_leb x y); [reflexivity|].
  rewrite perm_swap. constructor; exact IH.
Qed.

Lemma sorted_perm (l : list str) : Permutation l (sorted l).
Proof.
  induction l as [|x l IH]; simpl; [constructor|].
  rewrite <- insert_sorted_perm. constructor; exact IH.
Qed.

Lemma sorted_length (l : list str) : List.length (sorted l) = List.length l.
Proof. symmetry; apply Permutation_length, sorted_perm. Qed.

Lemma insert_sorted_hd (x y : str) (l : list str) :
  str_le y x -> HdRel str_le y l -> HdRel str_le y (insert_sorted x l).
Proof.
  intros Hyx Hl; destruct l as [|z l]; simpl; [constructor; assumption|].
  destruct (str_leb x z); constructor; [assumption|].
  inversion Hl; assumption.
Qed.

Lemma insert_sorted_sorted (x : str) (l : list str) :
  Sorted str_le l -> Sorted str_le (insert_sorted x l).
Proof.
  induction 1 as [|y l Hs IH Hhd]; simpl.
  - repeat constructor.
  - destruct (str_leb x y) eqn:E.
    + constructor; [constructor; assumption | constructor; exact E].
    + constructor; [exact IH|].
      apply insert_sorted_hd; [apply str_leb_total; exact E | assumption].
Qed.

Lemma sorted_sorted (l : list str) : Sorted str_le (sorted l).
Proof.
  induction l as [|x l IH]; simpl; [constructor|].
  apply insert_sorted_sorted; exact IH.
Qed.

End SortFacts.

(* ================================================================== *)
(** ** The batch *)

Module Batch.
Import Py Bs4 ParseQuestions PyFacts SortFacts.

Section Batch.
Variable unicode_Nd : char -> bool.
Variable read_soup : str -> result node.
Variable glob : str -> list str.
Variable path_join : str -> str -> str.
Variable basename : str -> str.

#[local] Abbreviation parse_body := (parse_body unicode_Nd read_soup).
#[local] Abbreviation parse_html_file :=
  (parse_html_file unicode_Nd read_soup).
#[local] Abbreviation process_files :=
  (process_files unicode_Nd read_soup basename).
#[local] Abbreviation html_files := (html_files glob path_join).
#[local] Abbreviation process_directory :=
  (process_directory unicode_Nd read_soup glob path_join basename).

(** What the parser returns for a document, prints apart. *)
#[local] Abbreviation parse := (fun path => value (parse_html_file path)).

(** The sentinel result of a document that could not be parsed. *)
#[local] Abbreviation sentinel :=
  (fun path => mk_parsed Error_parsing_file [] path).

Lemma value_and_then (A B : Type) (c : Console A) (k : A -> Console B) :
  value (and_then c k) = value (k (value c)).
Proof.
  unfold and_then, value. destruct c as [a out1]; simpl.
  destruct (k a); reflexivity.
Qed.

Lemma parse_fault (path e : str) :
  parse_body path = Raise e -> parse path = sentinel path.
Proof.
  intros H. unfold ParseQuestions.parse_html_file. rewrite H; reflexivity.
Qed.

Lemma parse_ok (path : str) (r : parsed) :
  parse_body path = Ok r -> parse path = r.
Proof.
  intros H. unfold ParseQuestions.parse_html_file. rewrite H; reflexivity.
Qed.

Lemma read_fault (path e : str) :
  read_soup path = Raise e -> parse_body path = Raise e.
Proof.
  intros H. unfold ParseQuestions.parse_body. rewrite H; reflexivity.
Qed.

Lemma parse_body_path (path : str) (r : parsed) :
  parse_body path = Ok r -> file_path r = path.
Proof.
  unfold ParseQuestions.parse_body.
  destruct (read_soup path) as [soup|e]; simpl; [|discriminate].
  destruct (extract_name unicode_Nd soup) as [n|e]; simpl; [|discriminate].
  intros H; inversion H; reflexivity.
Qed.

Lemma process_files_value (files : list str) :
  forall results,
    value (process_files files results)
    = results ++ List.map parse files.
Proof.
  induction files as [|path rest IH]; intros results.
  - simpl; symmetry; apply app_nil_r.
  - cbn [ParseQuestions.process_files List.map].
    rewrite !value_and_then, IH, <- app_assoc; reflexivity.
Qed.

Lemma process_directory_value (directory_path : str) :
  value (process_directory directory_path)
  = List.map parse (sorted (html_files directory_path)).
Proof.
  unfold ParseQuestions.process_directory.
  destruct (html_files directory_path) as [|f fs] eqn:E; [reflexivity|].
  rewrite value_and_then, process_files_value; reflexivity.
Qed.

Lemma parse_file_path (path : str) : file_path (parse path) = path.
Proof.
  destruct (parse_body path) as [r|e] eqn:E.
  - erewrite parse_ok by eassumption. eapply parse_body_path; eassumption.
  - erewrite parse_fault by eassumption; reflexivity.
Qed.

(** C10. The result of the parser carries the path it was given, when the
    document is parsed and when it yields the sentinel alike. *)
Theorem file_path_kept (path : str) :
  file_path (parse path) = path
  /\ (forall r, parse_body path = Ok r ->
                parse path = r /\ file_path r = path)
  /\ (forall e, parse_body path = Raise e ->
                parse path = sentinel path).
Proof.
  split; [apply parse_file_path | split].
  - intros r H; split; [eapply parse_ok | eapply parse_body_path]; eassumption.
  - intros e H; eapply parse_fault; eassumption.
Qed.



End Batch.

(** One file that is parsed and one that cannot be read. *)
Lemma file_path_kept_witness :
  let parse path :=
    value (parse_html_file Samples.ascii_digits_only Samples.sample_read path)
  in
  (parse (py "in/b.html")
   = mk_parsed (py "Jane Doe") [py "Q1 line one"; py "Q2 part A Q2 part B"]
       (py "in/b.html")
   /\ file_path (parse (py "in/b.html")) = py "in/b.html")
  /\ parse (py "in/a.html")
     = mk_parsed Error_parsing_file [] (py "in/a.html").
Proof.
  split.
  - destruct (file_path_kept Samples.ascii_digits_only Samples.sample_read
                (py "in/b.html")) as (_ & Hok & _).
    destruct (Hok (mk_parsed (py "Jane Doe")
                     [py "Q1 line one"; py "Q2 part A Q2 part B"]
                     (py "in/b.html")) eq_refl) as [H _].
    split; [exact H | rewrite H; reflexivity].
  - destruct (file_path_kept Samples.ascii_digits_only Samples.sample_read
                (py "in/a.html")) as (_ & _ & Hfault).
    exact (Hfault (py "[Errno 13] Permission denied") eq_refl).
Defined.


End Batch.

(* ================================================================== *)
(** ** Name extraction *)

Module Names.
Import Py Bs4 ParseQuestions PyFacts ReFacts NamePattern.

Section Names.
Variable unicode_Nd : char -> bool.
Variable read_soup : str -> result node.

#[local] Abbreviation search := (Re.search unicode_Nd).
#[local] Abbreviation name_from := (name_from unicode_Nd).
#[local] Abbreviation extract_name := (extract_name unicode_Nd).
#[local] Abbreviation label_of := (Spec.label_of unicode_Nd).
#[local] Abbreviation label_in := (Spec.label_in unicode_Nd).
#[local] Abbreviation first_match := (Spec.first_match unicode_Nd).
#[local] Abbreviation no_label := (Spec.no_label unicode_Nd).
#[local] Abbreviation parse :=
  (fun path => value (parse_html_file unicode_Nd read_soup path)).

(** A search never raises: the group takes part in every match. *)
Lemma name_from_label (text student_name : str) :
  name_from text student_name
  = Ok (match label_of text with Some l => l | None => student_name end).
Proof.
  unfold ParseQuestions.name_from, Spec.label_of, Re.group1.
  destruct (search Re.name_pattern text) as [m|] eqn:E; [|reflexivity].
  apply search_group in E; destruct E as (c & cap & ->); reflexivity.
Qed.

(** The name the program extracts, case by case. *)
Lemma extract_name_value (soup : node) :
  extract_name soup
  = Ok (match label_in (py "title") soup with
        | Some l =>
            if str_eqb l Unknown_Student
            then match label_in (py "h1") soup with
                 | Some l' => l'
                 | None => Unknown_Student
                 end
            else l
        | None =>
            match label_in (py "h1") soup with
            | Some l' => l'
            | None => Unknown_Student
            end
        end).
Proof.
  assert (H1 : match find (py "h1") soup with
               | Some h1 => name_from (strip (get_text h1)) Unknown_Student
               | None => Ok Unknown_Student
               end
               = Ok (match label_in (py "h1") soup with
                     | Some l' => l'
                     | None => Unknown_Student
                     end)).
  { unfold Spec.label_in, Spec.field_text.
    destruct (find (py "h1") soup); simpl; [apply name_from_label|reflexivity]. }
  unfold ParseQuestions.extract_name, Spec.label_in at 1, Spec.field_text at 1.
  destruct (find (py "title") soup) as [title|]; simpl option_map; cbv iota.
  - rewrite name_from_label; cbn [bind].
    destruct (label_of (strip (get_text title))) as [l|].
    + destruct (str_eqb l Unknown_Student) eqn:E; [|reflexivity].
      apply str_eqb_eq in E; subst l. exact H1.
    + rewrite str_eqb_refl. exact H1.
  - cbn [bind]. rewrite str_eqb_refl. exact H1.
Qed.

(** The first match wins, unless the title's label is the sentinel text. *)
Lemma extract_name_first_match (soup : node) :
  label_in (py "title") soup <> Some Unknown_Student ->
  extract_name soup = Ok (first_match soup).
Proof.
  intros H. rewrite extract_name_value. unfold Spec.first_match.
  destruct (label_in (py "title") soup) as [l|]; [|reflexivity].
  destruct (str_eqb l Unknown_Student) eqn:E; [|reflexivity].
  apply str_eqb_eq in E; subst l. congruence.
Qed.

(** A label found by the program is never empty. *)
Lemma label_in_nonempty (name : str) (soup : node) (l : str) :
  label_in name soup = Some l -> l <> [].
Proof.
  unfold Spec.label_in, Spec.field_text, Spec.label_of.
  destruct (find name soup) as [tag|]; simpl; [|discriminate].
  destruct (search Re.name_pattern (strip (get_text tag))) as [m|] eqn:E;
    [|discriminate].
  apply search_stripped_label in E; destruct E as (cap & -> & Hcap).
  intros H; inversion H; subst; assumption.
Qed.

(** An element in whose text the pattern finds a blank label, or nothing,
    gives no label to the program, which searches the trimmed text. *)
Lemma no_label_skipped (name : str) (soup : node) :
  no_label name soup -> label_in name soup = None.
Proof.
  unfold Spec.no_label, Spec.blank_label, Spec.label_in, Spec.field_text.
  destruct (find name soup) as [tag|]; simpl; [|reflexivity].
  unfold Spec.label_of.
  destruct (search Re.name_pattern (get_text tag)) as [[cap|]|] eqn:E.
  - intros [H | H]; [|discriminate]. inversion H as [Hcap].
    rewrite (search_blank_label unicode_Nd _ _ E Hcap); reflexivity.
  - apply search_group in E; destruct E as (c & cap & E); discriminate.
  - intros _. destruct (strip_infix (get_text tag)) as (l & w & Ei).
    rewrite Ei in E. apply search_infix_none in E. rewrite E; reflexivity.
Qed.

Lemma extract_name_nonempty (soup : node) :
  exists n, extract_name soup = Ok n /\ n <> [].
Proof.
  rewrite extract_name_value. eexists; split; [reflexivity|].
  destruct (label_in (py "title") soup) as [l|] eqn:Et.
  - destruct (str_eqb l Unknown_Student).
    + destruct (label_in (py "h1") soup) as [l'|] eqn:Eh; [|discriminate].
      eapply label_in_nonempty; eassumption.
    + eapply label_in_nonempty; eassumption.
  - destruct (label_in (py "h1") soup) as [l'|] eqn:Eh; [|discriminate].
    eapply label_in_nonempty; eassumption.
Qed.

(** What the parser returns for a document that was read. *)
Lemma parse_read (path : str) (soup : node) :
  read_soup path = Ok soup ->
  exists n,
    extract_name soup = Ok n /\ n <> []
    /\ parse path = mk_parsed n (extract_questions soup) path.
Proof.
  intros H. destruct (extract_name_nonempty soup) as (n & En & Hn).
  exists n; repeat split; auto.
  unfold ParseQuestions.parse_html_file, ParseQuestions.parse_body.
  rewrite H; cbn [bind]. rewrite En; reflexivity.
Qed.

Lemma parse_cases (path : str) :
  (exists e, read_soup path = Raise e
             /\ parse path = mk_parsed Error_parsing_file [] path)
  \/ (exists soup n,
        read_soup path = Ok soup /\ extract_name soup = Ok n /\ n <> []
        /\ parse path = mk_parsed n (extract_questions soup) path).
Proof.
  destruct (read_soup path) as [soup|e] eqn:E.
  - right. destruct (parse_read path soup E) as (n & En & Hn & Hp).
    exists soup, n; auto.
  - left. exists e; split; [reflexivity|].
    unfold ParseQuestions.parse_html_file, ParseQuestions.parse_body.
    rewrite E; reflexivity.
Qed.

(** The name when one of the two elements supplies no label. *)
Lemma name_without_title (path : str) (soup : node) :
  read_soup path = Ok soup -> no_label (py "title") soup ->
  student_name (parse path)
  = match label_in (py "h1") soup with
    | Some l => l
    | None => Unknown_Student
    end.
Proof.
  intros Hread Ht.
  destruct (parse_read path soup Hread) as (n & En & _ & ->); simpl.
  rewrite extract_name_value, (no_label_skipped _ _ Ht) in En.
  congruence.
Qed.

Lemma name_without_h1 (path : str) (soup : node) :
  read_soup path = Ok soup -> no_label (py "h1") soup ->
  student_name (parse path)
  = match label_in (py "title") soup with
    | Some l => l
    | None => Unknown_Student
    end.
Proof.
  intros Hread Hh.
  destruct (parse_read path soup Hread) as (n & En & _ & ->); simpl.
  rewrite extract_name_value, (no_label_skipped _ _ Hh) in En.
  destruct (label_in (py "title") soup) as [l|]; [|congruence].
  destruct (str_eqb l Unknown_Student) eqn:E; [|congruence].
  apply str_eqb_eq in E; congruence.
Qed.

Lemma blank_is_no_label (name : str) (soup tag : node) :
  find name soup = Some tag -> Spec.blank_label unicode_Nd tag ->
  no_label name soup.
Proof.
  intros Hf Hb. unfold Spec.no_label. rewrite Hf. left; exact Hb.
Qed.

(** C7, as the program has it. An empty string is never the name of a
    document. An element (title or h1) in which the pattern matches with a
    label that is empty after trimming supplies no name: the name is then
    the label the other element supplies, and it stays "Unknown Student"
    when the other element supplies none (it is missing, has no match, or
    has a blank label too). *)
Theorem blank_label_supplies_no_name :
  (forall path, student_name (parse path) <> [])
  /\ (forall path soup title,
        read_soup path = Ok soup ->
        find (py "title") soup = Some title ->
        Spec.blank_label unicode_Nd title ->
        student_name (parse path)
        = match label_in (py "h1") soup with
          | Some l => l
          | None => Unknown_Student
          end)
  /\ (forall path soup h1,
        read_soup path = Ok soup ->
        find (py "h1") soup = Some h1 ->
        Spec.blank_label unicode_Nd h1 ->
        student_name (parse path)
        = match label_in (py "title") soup with
          | Some l => l
          | None => Unknown_Student
          end)
  /\ (forall path soup,
        read_soup path = Ok soup ->
        no_label (py "title") soup ->
        no_label (py "h1") soup ->
        student_name (parse path) = Unknown_Student).
Proof.
  split; [|split; [|split]].
  - intros path.
    destruct (parse_cases path)
      as [(e & _ & ->) | (soup & n & _ & _ & Hn & ->)]; simpl;
      [discriminate | assumption].
  - intros path soup title Hread Hf Hb.
    apply name_without_title; [assumption|].
    eapply blank_is_no_label; eassumption.
  - intros path soup h1 Hread Hf Hb.
    apply name_without_h1; [assumption|].
    eapply blank_is_no_label; eassumption.
  - intros path soup Hread Ht Hh.
    rewrite (name_without_title path soup Hread Ht).
    rewrite (no_label_skipped _ _ Hh); reflexivity.
Qed.

End Names.

(** A blank title with a named h1, and a blank title alone. *)
Lemma blank_label_supplies_no_name_witness :
  student_name
    (value (parse_html_file Samples.ascii_digits_only
              (Samples.always Pages.blank_title_named_h1) (py "in/c.html")))
  = match Spec.label_in Samples.ascii_digits_only (py "h1")
            Pages.blank_title_named_h1 with
    | Some l => l
    | None => Unknown_Student
    end
  /\ student_name
       (value (parse_html_file Samples.ascii_digits_only
                 (Samples.always Samples.blank_title) (py "in/c.html")))
     = Unknown_Student.
Proof.
  destruct (blank_label_supplies_no_name Samples.ascii_digits_only
              (Samples.always Pages.blank_title_named_h1))
    as (_ & Htitle & _ & _).
  destruct (blank_label_supplies_no_name Samples.ascii_digits_only
              (Samples.always Samples.blank_title))
    as (_ & _ & _ & Hboth).
  split.
  - apply (Htitle (py "in/c.html") Pages.blank_title_named_h1
             Pages.blank_title_tag); reflexivity.
  - apply (Hboth (py "in/c.html") Samples.blank_title).
    + reflexivity.
    + left; vm_compute; reflexivity.
    + vm_compute; exact I.
Defined.

(** C7, as it is worded: in this document the pattern matches in the title
    with a label that is empty after trimming, and the name is not the
    sentinel but the label of the h1. *)
Lemma blank_title_named_by_h1 :
  find (py "title") Pages.blank_title_named_h1 = Some Pages.blank_title_tag
  /\ Spec.blank_label Samples.ascii_digits_only Pages.blank_title_tag
  /\ student_name
       (value (parse_html_file Samples.ascii_digits_only
                 (Samples.always Pages.blank_title_named_h1)
                 (py "in/c.html")))
     = py "Jane Doe"
  /\ py "Jane Doe" <> Unknown_Student.
Proof.
  repeat split; try reflexivity. vm_compute; discriminate.
Qed.

(** C2, at the document where it fails: the title's label is the text
    "Unknown Student", so the program goes on to the h1 and takes its
    label, while the first match is the title's. *)
Theorem sentinel_label_falls_through :
  extract_name Samples.ascii_digits_only Samples.shadowed
  = Ok (py "Jane Doe")
  /\ Spec.label_in Samples.ascii_digits_only (py "title") Samples.shadowed
     = Some (py "Unknown Student")
  /\ Spec.first_match Samples.ascii_digits_only Samples.shadowed
     = py "Unknown Student".
Proof. vm_compute; auto. Qed.

End Names.

(* ================================================================== *)
(** ** Documents *)

Module Documents.
Import Py Bs4 ParseQuestions PyFacts.

Section Documents.
Variable unicode_Nd : char -> bool.
Variable read_soup : str -> result node.

#[local] Abbreviation parse :=
  (fun path => value (parse_html_file unicode_Nd read_soup path)).

(** C6. Every question of every parsed document is a non-empty string,
    however many delimiter paragraphs lead, trail or follow one another. *)
Theorem questions_nonempty (path : str) :
  Forall (fun q => q <> []) (questions (parse path)).
Proof.
  destruct (Names.parse_cases unicode_Nd read_soup path)
    as [(e & _ & ->) | (soup & n & _ & _ & _ & ->)]; simpl.
  - constructor.
  - apply Segmentation.extract_questions_nonempty.
Qed.

(** A document without questions is a name line and a blank line. *)
Lemma format_result_no_question (output : list str) (d : parsed) :
  questions d = [] ->
  format_result output d = output ++ [py "- " ++ student_name d; []].
Proof.
  intros H. rewrite Formatting.format_result_block.
  unfold Spec.block; rewrite H; reflexivity.
Qed.

(** C8, as the program has it: a document with no container, or whose first
    container holds no paragraph at any depth, has no questions, and its
    block in the report is the line "- <name>" and a blank line. *)
Theorem no_paragraph_no_question (path : str) (soup : node) :
  read_soup path = Ok soup ->
  find (py "div") soup = None
  \/ (exists content_div,
        find (py "div") soup = Some content_div
        /\ find_all (py "p") content_div = []) ->
  questions (parse path) = []
  /\ (forall output,
        format_result output (parse path)
        = output ++ [py "- " ++ student_name (parse path); []])
  /\ format_output [parse path]
     = py "- " ++ student_name (parse path) ++ [LF].
Proof.
  intros Hread Hdiv.
  assert (Hq : questions (parse path) = []).
  { destruct (Names.parse_read unicode_Nd read_soup path soup Hread)
      as (n & _ & _ & ->); simpl.
    unfold extract_questions.
    destruct Hdiv as [-> | (content_div & -> & ->)]; reflexivity. }
  split; [exact Hq | split].
  - intros output; apply format_result_no_question; exact Hq.
  - unfold format_output; simpl fold_left.
    rewrite format_result_no_question by exact Hq.
    reflexivity.
Qed.

End Documents.

Lemma no_paragraph_no_question_witness :
  let d :=
    value (parse_html_file Samples.ascii_digits_only
             (Samples.always Samples.no_paragraph) (py "in/d.html")) in
  questions d = []
  /\ (forall output,
        format_result output d = output ++ [py "- " ++ student_name d; []])
  /\ format_output [d] = py "- " ++ student_name d ++ [LF].
Proof.
  apply (no_paragraph_no_question Samples.ascii_digits_only
           (Samples.always Samples.no_paragraph) (py "in/d.html")
           Samples.no_paragraph).
  - reflexivity.
  - right; exists Samples.empty_div; split; reflexivity.
Defined.

(** C8, as it is worded: the first container of this document has no
    paragraph among its children, and the document has a question, from the
    paragraph nested one level below. *)
Lemma nested_paragraph_is_a_question :
  find (py "div") Samples.nested = Some Samples.nested_div
  /\ children_named (py "p") Samples.nested_div = []
  /\ extract_questions Samples.nested = [py "Why?"].
Proof. repeat split. Qed.

End Documents.

(* ================================================================== *)
(** ** Words *)

Module SplitFacts.
Import Py PyFacts Shapes.

#[local] Arguments isspace : simpl never.

Lemma forallb_isspace (s : str) :
  forallb isspace s = true <-> Forall (fun c => isspace c = true) s.
Proof. rewrite forallb_forall, Forall_forall; reflexivity. Qed.

Lemma split_from_space (cur : str) (c : char) (s : str) :
  isspace c = true ->
  split_from cur (c :: s) = split_from cur [] ++ split s.
Proof. intros Hc; simpl; rewrite Hc. destruct (truthy cur); reflexivity. Qed.

Lemma split_all_space (s : str) :
  Forall (fun c => isspace c = true) s -> split s = [].
Proof.
  unfold split; induction 1 as [|c s Hc _ IH]; simpl; [reflexivity|].
  rewrite Hc; exact IH.
Qed.

(** Whitespace at the end adds no word. *)
Lemma split_from_app_space (s w : str) :
  Forall (fun c => isspace c = true) w ->
  forall cur, split_from cur (s ++ w) = split_from cur s.
Proof.
  intros Hw; induction s as [|c s IH]; intros cur; simpl.
  - destruct w as [|c w]; [reflexivity|].
    inversion Hw; subst. rewrite split_from_space by assumption.
    rewrite split_all_space by assumption. apply app_nil_r.
  - destruct (isspace c); [destruct (truthy cur)|]; rewrite IH; reflexivity.
Qed.

(** A whitespace character between two texts separates their words. *)
Lemma split_from_app (s1 : str) (sp : char) (s2 : str) :
  isspace sp = true ->
  forall cur,
    split_from cur (s1 ++ sp :: s2) = split_from cur s1 ++ split s2.
Proof.
  intros Hsp; induction s1 as [|c s1 IH]; intros cur.
  - apply split_from_space; assumption.
  - simpl. destruct (isspace c); [destruct (truthy cur)|]; rewrite IH;
      reflexivity.
Qed.

Lemma split_lstrip (s : str) : split (lstrip s) = split s.
Proof.
  unfold split; induction s as [|c s IH]; simpl; [reflexivity|].
  destruct (isspace c) eqn:E; [exact IH|].
  simpl; rewrite E; reflexivity.
Qed.

Lemma rstrip_decomp (s : str) :
  exists w, s = rstrip s ++ w /\ Forall (fun c => isspace c = true) w.
Proof.
  induction s as [|c s (w & E & Hw)].
  - exists []; split; [reflexivity | constructor].
  - rewrite rstrip_cons. destruct (rstrip s) as [|x r] eqn:Er; simpl truthy;
      cbv iota.
    + simpl in E; subst w. destruct (isspace c) eqn:Hc.
      * exists (c :: s); split; [reflexivity | constructor; assumption].
      * exists s; split; [reflexivity | assumption].
    + exists w; split; [|assumption]. simpl; f_equal; exact E.
Qed.

Lemma split_rstrip (s : str) : split (rstrip s) = split s.
Proof.
  destruct (rstrip_decomp s) as (w & E & Hw).
  rewrite E at 2. unfold split. symmetry; apply split_from_app_space; exact Hw.
Qed.

(** Trimming keeps the words. *)
Lemma split_strip (s : str) : split (strip s) = split s.
Proof. unfold strip; rewrite split_rstrip; apply split_lstrip. Qed.

(** What [split] returns are words. *)
Lemma split_from_words (s : str) :
  forall cur,
    Forall (fun c => isspace c = false) cur ->
    Forall word (split_from cur s).
Proof.
  induction s as [|c s IH]; intros cur Hcur; simpl.
  - destruct (truthy cur) eqn:E; constructor; [|constructor].
    split; [apply truthy_true; assumption | assumption].
  - destruct (isspace c) eqn:Hc.
    + destruct (truthy cur) eqn:E; [constructor|]; try (apply IH; constructor).
      split; [apply truthy_true; assumption | assumption].
    + apply IH. apply Forall_app; split; [assumption|].
      constructor; [assumption | constructor].
Qed.

Lemma split_words (s : str) : Forall word (split s).
Proof. apply split_from_words; constructor. Qed.

Lemma split_from_word (w : str) :
  Forall (fun c => isspace c = false) w ->
  forall cur s, split_from cur (w ++ s) = split_from (cur ++ w) s.
Proof.
  induction 1 as [|c w Hc _ IH]; intros cur s; simpl.
  - rewrite app_nil_r; reflexivity.
  - rewrite Hc, IH, <- app_assoc; reflexivity.
Qed.

(** Words joined by single spaces split back into the same words. *)
Lemma split_join (ws : list str) :
  Forall word ws -> split (join [SPACE] ws) = ws.
Proof.
  induction 1 as [|w ws [Hne Hw] Hws IH]; [reflexivity|].
  assert (E : split w = [w]).
  { unfold split. rewrite <- (app_nil_r w) at 1.
    rewrite split_from_word by assumption. simpl.
    apply truthy_true in Hne; rewrite Hne; reflexivity. }
  destruct ws as [|w' ws]; [exact E|].
  change (join [SPACE] (w :: w' :: ws))
    with (w ++ SPACE :: join [SPACE] (w' :: ws)).
  unfold split at 1. rewrite split_from_app by reflexivity.
  fold (split w). rewrite E, IH; reflexivity.
Qed.

End SplitFacts.

(* ================================================================== *)
(** ** More on question segmentation *)

Module SegmentationFacts.
Import Py Bs4 ParseQuestions PyFacts Shapes SplitFacts.

#[local] Arguments isspace : simpl never.
#[local] Arguments strip : simpl never.

(** A trimmed text is never a lone non-breaking space. *)
Lemma strip_not_nbsp (s : str) : str_eqb (strip s) [NBSP] = false.
Proof.
  destruct (str_eqb (strip s) [NBSP]) eqn:E; [|reflexivity].
  apply str_eqb_eq in E. apply strip_hd in E. discriminate.
Qed.

Lemma truthy_strip (s : str) : truthy (strip s) = negb (forallb isspace s).
Proof.
  destruct (forallb isspace s) eqn:E; simpl.
  - apply truthy_false, strip_empty_iff, forallb_isspace; assumption.
  - destruct (truthy (strip s)) eqn:T; [reflexivity|].
    apply truthy_false, strip_empty_iff, forallb_isspace in T. congruence.
Qed.

Lemma delimiter_test (s : str) :
  negb (truthy (strip s)) || str_eqb (strip s) [NBSP] = forallb isspace s.
Proof.
  rewrite strip_not_nbsp, orb_false_r, truthy_strip. apply negb_involutive.
Qed.

(** X1. A paragraph is a delimiter exactly when its text is whitespace from
    end to end (or empty): the loop then pushes the accumulated question,
    and otherwise appends the trimmed text; the comparison with ['\xa0']
    never decides. *)
Theorem delimiter_iff_blank (current_question : str) (questions : list str)
    (p : node) :
  paragraph_step (current_question, questions) p
  = if forallb isspace (get_text p)
    then (if forallb isspace current_question
          then (current_question, questions)
          else ([], questions ++ [strip current_question]))
    else (if truthy current_question
          then (current_question ++ [SPACE] ++ strip (get_text p), questions)
          else (strip (get_text p), questions)).
Proof.
  unfold paragraph_step. rewrite delimiter_test, truthy_strip.
  destruct (forallb isspace (get_text p)); [|reflexivity].
  destruct (forallb isspace current_question); reflexivity.
Qed.

Lemma is_delimiter_blank (t : str) :
  Spec.is_delimiter (strip t) = forallb isspace t.
Proof. rewrite <- Segmentation.is_delimiter_test; apply delimiter_test. Qed.

Lemma accumulate_words (texts : list str) :
  forall acc,
    flat_map split (Spec.accumulate acc texts)
    = split acc ++ flat_map split texts.
Proof.
  induction texts as [|t rest IH]; intros acc; simpl.
  - rewrite app_nil_r, truthy_strip.
    destruct (forallb isspace acc) eqn:E; simpl.
    + symmetry; apply split_all_space, forallb_isspace; assumption.
    + rewrite app_nil_r; apply split_strip.
  - rewrite is_delimiter_blank.
    destruct (forallb isspace t) eqn:Et.
    + rewrite (split_all_space t) by (apply forallb_isspace; assumption).
      rewrite truthy_strip.
      destruct (forallb isspace acc) eqn:E; simpl; rewrite IH.
      * reflexivity.
      * rewrite split_strip; reflexivity.
    + rewrite IH, app_assoc; f_equal.
      destruct acc as [|c acc]; simpl truthy; cbv iota.
      * apply split_strip.
      * unfold split at 1.
        change ((c :: acc) ++ [SPACE] ++ strip t)
          with ((c :: acc) ++ SPACE :: strip t).
        rewrite split_from_app by reflexivity.
        rewrite split_strip; reflexivity.
Qed.

(** X2. No text is lost, added or moved: the words of the questions, read
    one question after the other, are the words of the paragraph texts,
    read one paragraph after the other. *)
Theorem questions_keep_words (paragraphs : list node) :
  flat_map split (collect_questions paragraphs)
  = flat_map split (List.map get_text paragraphs).
Proof.
  rewrite Segmentation.collect_questions_segment. unfold Spec.segment.
  apply accumulate_words.
Qed.

Lemma accumulate_trimmed (texts : list str) :
  forall acc, Forall (fun q => strip q = q) (Spec.accumulate acc texts).
Proof.
  induction texts as [|t rest IH]; intros acc; simpl.
  - destruct (truthy (strip acc)); constructor; auto using strip_idem.
  - destruct (Spec.is_delimiter (strip t)); [|apply IH].
    destruct (truthy (strip acc)); [|apply IH].
    constructor; [apply strip_idem | apply IH].
Qed.

(** X3. Every question the loop collects is trimmed: it neither starts nor
    ends with whitespace. *)
Theorem questions_trimmed (paragraphs : list node) :
  Forall (fun q => strip q = q) (collect_questions paragraphs).
Proof.
  rewrite Segmentation.collect_questions_segment; apply accumulate_trimmed.
Qed.

Lemma accumulate_count (texts : list str) :
  forall acc,
    List.length (Spec.accumulate acc texts)
    <= (if truthy (strip acc) then 1 else 0)
       + List.length (filter (fun t => negb (forallb isspace t)) texts)
    /\ List.length (Spec.accumulate acc texts)
       <= 1 + List.length (filter (forallb isspace) texts).
Proof.
  induction texts as [|t rest IH]; intros acc; simpl.
  - destruct (truthy (strip acc)); simpl; lia.
  - rewrite is_delimiter_blank.
    destruct (forallb isspace t) eqn:Et; simpl.
    + destruct (truthy (strip acc)) eqn:T; simpl.
      * destruct (IH []) as [H1 H2]. simpl in H1. lia.
      * destruct (IH acc) as [H1 H2]. rewrite T in H1. simpl in H1. lia.
    + match goal with |- context [Spec.accumulate ?a rest] =>
        destruct (IH a) as [H1 H2];
        destruct (truthy (strip a)) end;
        destruct (truthy (strip acc)); simpl in *; lia.
Qed.

(** X4. There are at most as many questions as paragraphs with something
    in them, and at most one more than there are blank paragraphs. *)
Theorem questions_count (paragraphs : list node) :
  List.length (collect_questions paragraphs)
  <= List.length (filter nonblank paragraphs)
  /\ List.length (collect_questions paragraphs)
     <= 1 + List.length
              (filter (fun p => negb (nonblank p)) paragraphs).
Proof.
  rewrite Segmentation.collect_questions_segment. unfold Spec.segment.
  destruct (accumulate_count (List.map get_text paragraphs) [])
    as [H1 H2].
  assert (E1 : List.length
                 (filter (fun t => negb (forallb isspace t))
                    (List.map get_text paragraphs))
               = List.length (filter nonblank paragraphs)).
  { clear; induction paragraphs as [|p ps IH]; simpl; [reflexivity|].
    unfold nonblank at 1. destruct (forallb isspace (get_text p)); simpl;
      rewrite IH; reflexivity. }
  assert (E2 : List.length
                 (filter (forallb isspace) (List.map get_text paragraphs))
               = List.length
                   (filter (fun p => negb (nonblank p)) paragraphs)).
  { clear; induction paragraphs as [|p ps IH]; simpl; [reflexivity|].
    unfold nonblank at 1. destruct (forallb isspace (get_text p)); simpl;
      rewrite IH; reflexivity. }
  simpl in H1. lia.
Qed.

End SegmentationFacts.

(* ================================================================== *)
(** ** The container *)

Module ContainerFacts.
Import Py Bs4 ParseQuestions PyFacts Shapes DocumentOrder.

Lemma find_all_tag (name tag : str) (contents : list node) :
  find_all name (Tag tag contents)
  = flat_map
      (fun c => (if is_tag name c then [c] else []) ++ find_all name c)
      contents.
Proof.
  unfold find_all; simpl descendants.
  induction contents as [|c cs IH]; simpl; [reflexivity|].
  rewrite filter_app, IH.
  destruct (is_tag name c); reflexivity.
Qed.

Lemma find_all_without (name : str) (pre : list node) :
  Forall (without name) pre ->
  flat_map
    (fun c => (if is_tag name c then [c] else []) ++ find_all name c) pre
  = [].
Proof.
  induction 1 as [|c pre [Ht Hf] _ IH]; simpl; [reflexivity|].
  rewrite Ht, Hf, IH; reflexivity.
Qed.

(** The first [name] tag among the contents of a tag. *)
Lemma find_first (name tag : str) (pre : list node) (first : node)
    (post : list node) :
  Forall (without name) pre -> is_tag name first = true ->
  find name (Tag tag (pre ++ first :: post)) = Some first.
Proof.
  intros Hpre Hfirst. unfold find.
  rewrite find_all_tag, flat_map_app, find_all_without by assumption.
  simpl; rewrite Hfirst; reflexivity.
Qed.

(** Induction on a tree, with the property known of the contents. *)
Lemma node_induction (P : node -> Prop) :
  (forall s, P (Text s)) ->
  (forall tag contents, Forall P contents -> P (Tag tag contents)) ->
  forall n, P n.
Proof.
  intros HText HTag. fix IH 1. intros [s | tag contents].
  - apply HText.
  - apply HTag. induction contents as [|c cs IHcs]; constructor.
    + apply IH.
    + exact IHcs.
Qed.

(** [find] returns the first tag in document order. *)
Lemma first_in_find (name : str) (d n : node) :
  first_in name d n -> find name n = Some d.
Proof.
  induction 1 as [tag pre post Hpre Hd | tag pre post c Hpre Hc _ IH].
  - apply find_first; assumption.
  - unfold find in *.
    rewrite find_all_tag, flat_map_app, find_all_without by assumption.
    simpl; rewrite Hc; simpl.
    destruct (find_all name c) as [|x l]; [discriminate|].
    exact IH.
Qed.

Lemma hd_contents (name : str) (d : node) (contents : list node) :
  hd_error
    (flat_map
       (fun c => (if is_tag name c then [c] else []) ++ find_all name c)
       contents)
  = Some d ->
  exists pre x post,
    contents = pre ++ x :: post /\ Forall (without name) pre
    /\ In x contents
    /\ ((x = d /\ is_tag name d = true)
        \/ (is_tag name x = false /\ find name x = Some d)).
Proof.
  induction contents as [|c cs IH]; simpl; [discriminate|].
  destruct (is_tag name c) eqn:Hc; simpl.
  - intros H; inversion H; subst c.
    exists [], d, cs; repeat split; auto.
  - destruct (find_all name c) as [|x l] eqn:Hf; simpl.
    + intros H. destruct (IH H) as (pre & x & post & -> & Hpre & Hin & Hx).
      exists (c :: pre), x, post; repeat split; auto.
      constructor; [split; assumption | assumption].
    + intros H; inversion H; subst x.
      exists [], c, cs; repeat split; auto.
      right; split; [exact Hc|]. unfold find; rewrite Hf; reflexivity.
Qed.

Lemma find_first_in (name : str) (d : node) :
  forall n, find name n = Some d -> first_in name d n.
Proof.
  intros n; induction n as [s | tag contents IH] using node_induction.
  - discriminate.
  - unfold find; rewrite find_all_tag. intros H.
    apply hd_contents in H.
    destruct H as (pre & x & post & -> & Hpre & Hin & [[-> Hd] | [Hx Hf]]).
    + apply first_child; assumption.
    + apply first_below; try assumption.
      rewrite Forall_forall in IH. apply IH; assumption.
Qed.

(** X5. Only the first container counts, wherever it is in the tree: when
    [content_div] is the first div of the document in document order (the
    elements before it, at every level above it, hold no div), the
    questions are those of its paragraphs, whatever follows it at any
    level, paragraphs and further containers included. And the first div
    in document order is the one the program takes. *)
Theorem first_container_only (soup content_div : node) :
  (first_in (py "div") content_div soup ->
   extract_questions soup
   = collect_questions (find_all (py "p") content_div))
  /\ (first_in (py "div") content_div soup
      <-> find (py "div") soup = Some content_div).
Proof.
  split; [|split; [apply first_in_find | apply find_first_in]].
  intros H. unfold extract_questions.
  rewrite (first_in_find _ _ _ H); reflexivity.
Qed.

Lemma first_container_only_witness :
  extract_questions Pages.page
  = collect_questions (find_all (py "p") Pages.questions_div).
Proof.
  apply (proj1 (first_container_only Pages.page Pages.questions_div)).
  apply (@first_below (py "div") Pages.questions_div (py "[document]") []
           [] (Tag (py "html")
                 [Tag (py "head") [Tag (py "title") [Text (py "Week 2")]];
                  Pages.page_body;
                  Tag (py "div") [Samples.p_tag "Footer"]]));
    [constructor | reflexivity |].
  apply (@first_below (py "div") Pages.questions_div (py "html")
           [Tag (py "head") [Tag (py "title") [Text (py "Week 2")]]]
           [Tag (py "div") [Samples.p_tag "Footer"]] Pages.page_body);
    [repeat constructor | reflexivity |].
  apply (@first_child (py "div") Pages.questions_div (py "body")
           [Tag (py "h1") [Text (py "Questions 09/02: Jane Doe")]]
           [Samples.p_tag "Outside";
            Tag (py "div") [Samples.p_tag "Second container"]]);
    [repeat constructor | reflexivity].
Defined.

End ContainerFacts.

(* ================================================================== *)
(** ** More on names *)

Module NameFacts.
Import Py Re Lang Bs4 ParseQuestions PyFacts ReFacts NamePattern Shapes.

#[local] Arguments isspace : simpl never.

Section NameFacts.
Variable unicode_Nd : char -> bool.
Variable read_soup : str -> result node.

#[local] Abbreviation accepts := (accepts unicode_Nd).
#[local] Abbreviation lang := (lang unicode_Nd).
#[local] Abbreviation exec := (@exec unicode_Nd).
#[local] Abbreviation match_here := (match_here unicode_Nd).
#[local] Abbreviation search := (Re.search unicode_Nd).
#[local] Abbreviation name_from := (name_from unicode_Nd).
#[local] Abbreviation extract_name := (extract_name unicode_Nd).
#[local] Abbreviation label_in := (Spec.label_in unicode_Nd).
#[local] Abbreviation parse :=
  (fun path => value (parse_html_file unicode_Nd read_soup path)).

(** *** The label is one line *)

Lemma group_no_newline (s : str) (g m : match_obj) :
  exec (seq [Group (Plus Dot)]) s g found = Some m ->
  exists cap, m = Some cap /\ ~ In LF cap.
Proof.
  cbn [Re.exec seq fold_right]; intros H.
  apply one_sound in H; destruct H as (c & s1 & -> & Hc & H).
  apply star_sound in H; destruct H as (w & s2 & -> & Hw & H).
  unfold found in H.
  change (c :: w ++ s2) with ((c :: w) ++ s2) in H.
  rewrite captured_text in H.
  exists (c :: w); split; [inversion H; reflexivity|].
  assert (Hall : Forall (fun x => accepts Dot x = true) (c :: w))
    by (constructor; assumption).
  rewrite Forall_forall in Hall. intros Hin. apply Hall in Hin.
  discriminate.
Qed.

Lemma search_no_newline (s : str) (m : match_obj) :
  search name_pattern s = Some m ->
  exists cap, m = Some cap /\ ~ In LF cap.
Proof.
  intros H. apply search_leftmost in H.
  destruct H as (x & t & _ & H & _).
  rewrite match_here_split in H.
  apply exec_sound in H; destruct H as (w & s' & g' & _ & _ & H).
  change (exec label s' g' found)
    with (star isspace s'
            (fun s'' => exec (seq [Group (Plus Dot)]) s'' g' found)) in H.
  apply star_sound in H; destruct H as (_ & s'' & _ & _ & H).
  eapply group_no_newline; eassumption.
Qed.

Lemma in_strip (c : char) (s : str) : In c (strip s) -> In c s.
Proof.
  destruct (strip_infix s) as (l & w & E). intros H.
  rewrite E, !in_app_iff; auto.
Qed.

Lemma label_in_shape (name : str) (soup : node) (l : str) :
  label_in name soup = Some l -> strip l = l /\ ~ In LF l.
Proof.
  unfold Spec.label_in, Spec.field_text, Spec.label_of.
  destruct (find name soup) as [tag|]; simpl; [|discriminate].
  destruct (search name_pattern (strip (get_text tag))) as [m|] eqn:E;
    [|discriminate].
  apply search_no_newline in E; destruct E as (cap & -> & Hcap).
  intros H; inversion H; subst l. split; [apply strip_idem|].
  intros Hin; apply Hcap, in_strip; assumption.
Qed.

(** X6. The name of every result is trimmed and holds on one line: it
    neither starts nor ends with whitespace and contains no newline. *)
Theorem name_is_one_trimmed_line (path : str) :
  strip (student_name (parse path)) = student_name (parse path)
  /\ ~ In LF (student_name (parse path)).
Proof.
  destruct (Names.parse_cases unicode_Nd read_soup path)
    as [(e & _ & ->) | (soup & n & _ & En & _ & ->)]; simpl.
  - split; [reflexivity | vm_compute; intuition discriminate].
  - rewrite Names.extract_name_value in En.
    assert (U : strip Unknown_Student = Unknown_Student
                /\ ~ In LF Unknown_Student)
      by (split; [reflexivity | vm_compute; intuition discriminate]).
    inversion En as [E]; clear En.
    destruct (label_in (py "title") soup) as [l|] eqn:Et.
    + destruct (str_eqb l Unknown_Student).
      * destruct (label_in (py "h1") soup) as [l'|] eqn:Eh; subst n;
          [eapply label_in_shape; eassumption | exact U].
      * subst n; eapply label_in_shape; eassumption.
    + destruct (label_in (py "h1") soup) as [l'|] eqn:Eh; subst n;
        [eapply label_in_shape; eassumption | exact U].
Qed.

(** *** A text of the expected shape *)

Lemma star_greedy (R : Type) (p : char -> bool) (w s' : str)
    (k : str -> option R) (res : R) :
  Forall (fun c => p c = true) w ->
  (forall c r, s' = c :: r -> p c = false) ->
  k s' = Some res ->
  star p (w ++ s') k = Some res.
Proof.
  intros Hw Hnext Hk; induction Hw as [|c w Hc _ IH]; simpl.
  - destruct s' as [|c r]; [assumption|].
    simpl; rewrite (Hnext c r eq_refl); assumption.
  - rewrite Hc, IH; reflexivity.
Qed.

Lemma plus_greedy (R : Type) (p : char -> bool) (w s' : str)
    (k : str -> option R) (res : R) :
  w <> [] -> Forall (fun c => p c = true) w ->
  (forall c r, s' = c :: r -> p c = false) ->
  k s' = Some res ->
  one p (w ++ s') (fun s1 => star p s1 k) = Some res.
Proof.
  intros Hne Hw Hnext Hk. destruct Hw as [|c w Hc Hw]; [congruence|].
  simpl; rewrite Hc. apply star_greedy; assumption.
Qed.

Lemma exec_lit (R : Type) (s rest : str) (g : match_obj)
    (k : str -> match_obj -> option R) :
  exec (lit s) (s ++ rest) g k = k rest g.
Proof.
  induction s as [|c s IH]; [reflexivity|].
  change (lit (c :: s)) with (Cat (One (Chr c)) (lit s)).
  cbn [Re.exec]. simpl. unfold char_eqb; rewrite N.eqb_refl. exact IH.
Qed.

Lemma ascii_digit_decimal (c : char) :
  ascii_digit c = true -> accepts Digit c = true /\ isspace c = false.
Proof.
  unfold ascii_digit; intros H. apply andb_true_iff in H; destruct H as [H1 H2].
  apply N.leb_le in H1, H2. split.
  - simpl; unfold isdecimal.
    assert (L : (c <? 128)%N = true) by (apply N.ltb_lt; lia).
    rewrite L. apply andb_true_iff; split; apply N.leb_le; assumption.
  - unfold isspace.
    repeat match goal with
    | |- context [(?a <=? ?b)%N] =>
        destruct (N.leb_spec a b); try lia
    | |- context [(?a =? ?b)%N] =>
        destruct (N.eqb_spec a b); try lia
    end; reflexivity.
Qed.

Lemma digits_decimal (d : str) :
  Forall (fun c => ascii_digit c = true) d ->
  Forall (fun c => accepts Digit c = true) d.
Proof.
  intros H; eapply Forall_impl; [|exact H].
  intros c Hc; apply ascii_digit_decimal; exact Hc.
Qed.

Lemma digits_then (d : str) (rest : str) (p : char -> bool) :
  d <> [] -> Forall (fun c => ascii_digit c = true) d ->
  (forall c, ascii_digit c = true -> p c = false) ->
  forall c r, d ++ rest = c :: r -> p c = false.
Proof.
  intros Hne Hd Hp c r E. destruct Hd as [|x d Hx _]; [congruence|].
  inversion E; subst. apply Hp; assumption.
Qed.

(** A match at the head of the text is the one [search] returns. *)
Lemma search_here (r : regex) (s : str) (m : match_obj) :
  match_here r s = Some m -> search r s = Some m.
Proof. intros H; destruct s; simpl; rewrite H; reflexivity. Qed.

(** The pattern at the head of a text of the expected shape: the group is
    the rest of the line after the whitespace that follows the colon. *)
Lemma match_here_shape (ws1 d1 d2 ws2 : str) (c : char) (l rest : str) :
  ws1 <> [] -> Forall (fun x => isspace x = true) ws1 ->
  d1 <> [] -> Forall (fun x => ascii_digit x = true) d1 ->
  d2 <> [] -> Forall (fun x => ascii_digit x = true) d2 ->
  Forall (fun x => isspace x = true) ws2 ->
  isspace c = false -> ~ In LF (c :: l) ->
  (forall x r, rest = x :: r -> x = LF) ->
  match_here name_pattern
    (py "Questions" ++ ws1 ++ d1 ++ py "/" ++ d2 ++ py ":" ++ ws2
     ++ (c :: l) ++ rest)
  = Some (Some (c :: l)).
Proof.
  intros Hws1 Sws1 Hd1 Dd1 Hd2 Dd2 Sws2 Hc Hl Hrest.
  unfold Re.match_here, name_pattern. cbn [seq fold_right Re.exec].
  rewrite exec_lit.
  apply plus_greedy; [assumption | assumption | |].
  { apply digits_then; [assumption | assumption |].
    intros x Hx; apply ascii_digit_decimal; assumption. }
  apply plus_greedy; [assumption | apply digits_decimal; assumption | |].
  { intros x r E; inversion E; reflexivity. }
  rewrite exec_lit.
  apply plus_greedy; [assumption | apply digits_decimal; assumption | |].
  { intros x r E; inversion E; reflexivity. }
  rewrite exec_lit.
  apply star_greedy; [assumption | |].
  { intros x r E; inversion E; subst; assumption. }
  assert (Dl : Forall (fun x => accepts Dot x = true) (c :: l)).
  { apply Forall_forall; intros x Hx. simpl.
    destruct (char_eqb x LF) eqn:E; [|reflexivity].
    apply char_eqb_eq in E; subst x. contradiction. }
  apply plus_greedy; [discriminate | exact Dl | |].
  { intros x r E. rewrite (Hrest x r E); reflexivity. }
  rewrite captured_text; reflexivity.
Qed.

(** X7. A title that reads [Questions], whitespace, digits, a slash,
    digits, a colon, then a label gives the document the trimmed label as
    its name; the label ends at the first newline, and the text after it is
    dropped. (A label that is the text "Unknown Student" apart.) *)
Theorem shaped_title_names_document (soup title : node)
    (ws1 d1 d2 ws2 : str) (c : char) (l rest : str) :
  find (py "title") soup = Some title ->
  strip (get_text title)
  = py "Questions" ++ ws1 ++ d1 ++ py "/" ++ d2 ++ py ":" ++ ws2
    ++ (c :: l) ++ rest ->
  ws1 <> [] -> Forall (fun x => isspace x = true) ws1 ->
  d1 <> [] -> Forall (fun x => ascii_digit x = true) d1 ->
  d2 <> [] -> Forall (fun x => ascii_digit x = true) d2 ->
  Forall (fun x => isspace x = true) ws2 ->
  isspace c = false -> ~ In LF (c :: l) ->
  (forall x r, rest = x :: r -> x = LF) ->
  strip (c :: l) <> Unknown_Student ->
  extract_name soup = Ok (strip (c :: l)).
Proof.
  intros Hfind Htext Hws1 Sws1 Hd1 Dd1 Hd2 Dd2 Sws2 Hc Hl Hrest Hname.
  unfold ParseQuestions.extract_name. rewrite Hfind.
  unfold ParseQuestions.name_from at 1.
  assert (S : search name_pattern (strip (get_text title))
              = Some (Some (c :: l))).
  { rewrite Htext. apply search_here.
    apply match_here_shape; assumption. }
  rewrite S. cbn [Re.group1 bind].
  destruct (str_eqb (strip (c :: l)) Unknown_Student) eqn:E; [|reflexivity].
  apply str_eqb_eq in E; contradiction.
Qed.

End NameFacts.

Lemma shaped_title_names_document_witness :
  extract_name Samples.ascii_digits_only
    (Samples.document
       [Tag (py "title")
          [Text (py "  Questions  09/02:   Jane Doe" ++ [LF] ++ py "(group B) ")]])
  = Ok (strip (py "Jane Doe")).
Proof.
  apply (shaped_title_names_document Samples.ascii_digits_only
           (Samples.document
              [Tag (py "title")
                 [Text (py "  Questions  09/02:   Jane Doe" ++ [LF]
                        ++ py "(group B) ")]])
           (Tag (py "title")
              [Text (py "  Questions  09/02:   Jane Doe" ++ [LF]
                     ++ py "(group B) ")])
           (py "  ") (py "09") (py "02") (py "   ") 74%N (py "ane Doe")
           ([LF] ++ py "(group B)")).
  - reflexivity.
  - reflexivity.
  - discriminate.
  - repeat constructor.
  - discriminate.
  - repeat constructor.
  - discriminate.
  - repeat constructor.
  - repeat constructor.
  - reflexivity.
  - vm_compute; intuition discriminate.
  - intros x r E; inversion E; reflexivity.
  - vm_compute; discriminate.
Defined.

End NameFacts.

(* ================================================================== *)
(** ** The order of the batch *)

Module OrderFacts.
Import Py Bs4 ParseQuestions PyFacts SortFacts.

Lemma str_leb_antisym (a : str) :
  forall b, str_leb a b = true -> str_leb b a = true -> a = b.
Proof.
  induction a as [|x a IH]; intros [|y b]; simpl; try congruence.
  intros H1 H2.
  apply orb_true_iff in H1; apply orb_true_iff in H2.
  destruct H1 as [H1 | H1]; destruct H2 as [H2 | H2];
    try apply N.ltb_lt in H1; try apply N.ltb_lt in H2;
    try (apply andb_true_iff in H1; destruct H1 as [E1 H1];
         apply N.eqb_eq in E1);
    try (apply andb_true_iff in H2; destruct H2 as [E2 H2];
         apply N.eqb_eq in E2);
    try lia.
  subst y; f_equal; apply IH; assumption.
Qed.

Lemma str_leb_trans (a : str) :
  forall b c, str_leb a b = true -> str_leb b c = true -> str_leb a c = true.
Proof.
  induction a as [|x a IH]; intros [|y b] [|z c]; simpl; try congruence.
  intros H1 H2.
  apply orb_true_iff in H1; apply orb_true_iff in H2.
  apply orb_true_iff.
  destruct H1 as [H1 | H1]; destruct H2 as [H2 | H2];
    try apply N.ltb_lt in H1; try apply N.ltb_lt in H2;
    try (apply andb_true_iff in H1; destruct H1 as [E1 H1];
         apply N.eqb_eq in E1);
    try (apply andb_true_iff in H2; destruct H2 as [E2 H2];
         apply N.eqb_eq in E2).
  - left; apply N.ltb_lt; lia.
  - left; apply N.ltb_lt; lia.
  - left; apply N.ltb_lt; lia.
  - right; apply andb_true_iff; split; [apply N.eqb_eq; lia|].
    eapply IH; eassumption.
Qed.

Lemma sorted_strongly (l : list str) : StronglySorted str_le (sorted l).
Proof.
  apply Sorted_StronglySorted; [|apply sorted_sorted].
  intros a b c; apply str_leb_trans.
Qed.

(** A sorted list is determined by its elements. *)
Lemma strongly_sorted_unique (l1 : list str) :
  forall l2,
    StronglySorted str_le l1 -> StronglySorted str_le l2 ->
    Permutation l1 l2 -> l1 = l2.
Proof.
  induction l1 as [|x l1 IH]; intros l2 S1 S2 P.
  - apply Permutation_nil in P; congruence.
  - destruct l2 as [|y l2];
      [apply Permutation_sym, Permutation_nil in P; discriminate|].
    inversion S1 as [|? ? S1' F1]; inversion S2 as [|? ? S2' F2]; subst.
    assert (E : x = y).
    { assert (Hx : In x (y :: l2))
        by (eapply Permutation_in; [exact P | left; reflexivity]).
      assert (Hy : In y (x :: l1))
        by (eapply Permutation_in;
            [apply Permutation_sym; exact P | left; reflexivity]).
      rewrite Forall_forall in F1, F2.
      destruct Hx as [Hx | Hx]; [congruence|].
      destruct Hy as [Hy | Hy]; [congruence|].
      apply str_leb_antisym; [apply F1 | apply F2]; assumption. }
    subst y. f_equal. apply IH; try assumption.
    eapply Permutation_cons_inv; exact P.
Qed.

Lemma sorted_permutation (l1 l2 : list str) :
  Permutation l1 l2 -> sorted l1 = sorted l2.
Proof.
  intros P. apply strongly_sorted_unique; try apply sorted_strongly.
  rewrite <- (sorted_perm l1), <- (sorted_perm l2); exact P.
Qed.

Section Order.
Variable unicode_Nd : char -> bool.
Variable read_soup : str -> result node.
Variable path_join : str -> str -> str.
Variable basename : str -> str.

(** X8. The batch result does not depend on the order in which the
    directory scan lists the files: two scans that find the same files give
    the same results, in the same order. *)
Theorem scan_order_irrelevant (glob1 glob2 : str -> list str)
    (directory_path : str) :
  Permutation (html_files glob1 path_join directory_path)
              (html_files glob2 path_join directory_path) ->
  value (process_directory unicode_Nd read_soup glob1 path_join basename
           directory_path)
  = value (process_directory unicode_Nd read_soup glob2 path_join basename
             directory_path).
Proof.
  intros P. rewrite !Batch.process_directory_value.
  rewrite (sorted_permutation _ _ P); reflexivity.
Qed.

End Order.

Lemma scan_order_irrelevant_witness :
  value (process_directory Samples.ascii_digits_only Samples.sample_read
           Samples.sample_glob Samples.sample_join Samples.sample_basename
           (py "in"))
  = value (process_directory Samples.ascii_digits_only Samples.sample_read
             (fun pattern => rev (Samples.sample_glob pattern))
             Samples.sample_join Samples.sample_basename (py "in")).
Proof.
  apply scan_order_irrelevant. apply perm_swap.
Defined.

End OrderFacts.

(* ================================================================== *)
(** ** More on the report *)

Module ReportFacts.
Import Py Bs4 ParseQuestions PyFacts Shapes SplitFacts.

#[local] Arguments isspace : simpl never.

Lemma join_app (sep : str) (l1 l2 : list str) :
  l1 <> [] -> l2 <> [] ->
  join sep (l1 ++ l2) = join sep l1 ++ sep ++ join sep l2.
Proof.
  intros H1 H2. induction l1 as [|x l1 IH]; [congruence|].
  destruct l1 as [|y l1].
  - destruct l2; [congruence | reflexivity].
  - change (join sep ((x :: y :: l1) ++ l2))
      with (x ++ sep ++ join sep ((y :: l1) ++ l2)).
    rewrite IH by discriminate.
    change (join sep (x :: y :: l1)) with (x ++ sep ++ join sep (y :: l1)).
    rewrite <- !app_assoc; reflexivity.
Qed.

Lemma blocks_nonempty (results : list parsed) :
  results <> [] -> flat_map Spec.block results <> [].
Proof. destruct results; [congruence | discriminate]. Qed.

Lemma format_output_blocks (results : list parsed) :
  format_output results = join [LF] (flat_map Spec.block results).
Proof. unfold format_output; rewrite Formatting.format_loop; reflexivity. Qed.

(** X9. The report of two batches put end to end is the report of the
    first, a newline, and the report of the second. *)
Theorem format_output_app (results1 results2 : list parsed) :
  results1 <> [] -> results2 <> [] ->
  format_output (results1 ++ results2)
  = format_output results1 ++ [LF] ++ format_output results2.
Proof.
  intros H1 H2. rewrite !format_output_blocks, flat_map_app.
  apply join_app; apply blocks_nonempty; assumption.
Qed.

Lemma format_output_app_witness :
  format_output
    ([mk_parsed (py "Jane Doe") [py "Why?"] (py "a.html")]
     ++ [mk_parsed (py "Unknown Student") [] (py "b.html")])
  = format_output [mk_parsed (py "Jane Doe") [py "Why?"] (py "a.html")]
    ++ [LF]
    ++ format_output [mk_parsed (py "Unknown Student") [] (py "b.html")].
Proof. apply format_output_app; discriminate. Defined.

Lemma question_lines_words (qs1 : list str) :
  forall qs2 i,
    List.map split qs1 = List.map split qs2 ->
    Spec.question_lines i qs1 = Spec.question_lines i qs2.
Proof.
  induction qs1 as [|q1 qs1 IH]; intros [|q2 qs2] i H; simpl in H;
    try discriminate; [reflexivity|].
  inversion H as [[Hq Hqs]]. simpl.
  rewrite <- !Formatting.clean_normalize. unfold clean.
  rewrite Hq, (IH qs2 (S i) Hqs); reflexivity.
Qed.

(** X10. The report shows names and the words of the questions, nothing
    else: two batches whose documents have, one by one, the same name and
    questions made of the same words give the same report, whatever their
    file paths and the whitespace inside their questions. *)
Theorem format_output_same_content (results1 results2 : list parsed) :
  Forall2 same_content results1 results2 ->
  format_output results1 = format_output results2.
Proof.
  intros H. rewrite !format_output_blocks. f_equal.
  induction H as [|d1 d2 r1 r2 [Hn Hq] _ IH]; cbn [flat_map];
    [reflexivity|].
  assert (B : Spec.block d1 = Spec.block d2).
  { unfold Spec.block.
    rewrite Hn, (question_lines_words _ _ 1 Hq); reflexivity. }
  rewrite IH, B; reflexivity.
Qed.

Lemma format_output_same_content_witness :
  format_output
    [mk_parsed (py "Jane Doe") [py " Why   not?" ++ [LF]] (py "in/a.html")]
  = format_output
      [mk_parsed (py "Jane Doe") [py "Why not?"] (py "old/z.htm")].
Proof.
  apply format_output_same_content.
  repeat constructor.
Defined.

Lemma join_words_plain (ws : list str) :
  Forall word ws ->
  Forall (fun c => isspace c = true -> c = SPACE) (join [SPACE] ws).
Proof.
  induction 1 as [|w ws [_ Hw] Hws IH]; [constructor|].
  assert (P : Forall (fun c => isspace c = true -> c = SPACE) w).
  { eapply Forall_impl; [|exact Hw]. simpl; intros c Hc; congruence. }
  destruct ws as [|w' ws]; [exact P|].
  change (join [SPACE] (w :: w' :: ws))
    with (w ++ SPACE :: join [SPACE] (w' :: ws)).
  apply Forall_app; split; [exact P|].
  constructor; [reflexivity | exact IH].
Qed.

(** X11. The text of a question in the report has the words of the
    question and no whitespace but single plain spaces between them: it is
    trimmed, it has no newline, tab or non-breaking space, and cleaning it
    again changes nothing. *)
Theorem clean_is_normal (question : str) :
  split (clean question) = split question
  /\ clean (clean question) = clean question
  /\ strip (clean question) = clean question
  /\ Forall (fun c => isspace c = true -> c = SPACE) (clean question).
Proof.
  assert (S : split (clean question) = split question).
  { unfold clean. apply split_join, split_words. }
  split; [exact S | split; [|split]].
  - unfold clean at 1. rewrite S; reflexivity.
  - rewrite Formatting.clean_normalize. unfold Spec.normalize.
    apply strip_idem.
  - unfold clean. apply join_words_plain, split_words.
Qed.

End ReportFacts.

(* ================================================================== *)
(** ** The command line *)

Module CliFacts.
Import Py Bs4 ParseQuestions Cli PyFacts SortFacts.

Section Main.
Variable unicode_Nd : char -> bool.
Variable read_soup : str -> result node.
Variable glob : str -> list str.
Variable path_join : str -> str -> str.
Variable basename : str -> str.
Variable path_exists : str -> bool.
Variable path_isdir : str -> bool.
Variable abspath : str -> str.
Variable dirname : str -> str.
Variable makedirs : str -> result unit.
Variable write_text : str -> str -> result unit.

#[local] Abbreviation html_files := (html_files glob path_join).
#[local] Abbreviation process_directory :=
  (process_directory unicode_Nd read_soup glob path_join basename).
#[local] Abbreviation main :=
  (main unicode_Nd read_soup glob path_join basename path_exists path_isdir
     abspath dirname makedirs write_text).

(** The report [main] writes for a directory. *)
#[local] Abbreviation report :=
  (fun directory => format_output (value (process_directory directory))).

(** The directory of the output file is there, or can be made. *)
#[local] Abbreviation output_dir_ready :=
  (fun output_file =>
     dirname (abspath output_file) = []
     \/ path_exists (dirname (abspath output_file)) = true
     \/ makedirs (dirname (abspath output_file)) = Ok tt).

Lemma results_nil_iff (directory : str) :
  value (process_directory directory) = [] <-> html_files directory = [].
Proof.
  rewrite Batch.process_directory_value. split; intros H.
  - apply length_zero_iff_nil. rewrite <- sorted_length.
    apply (f_equal (@List.length _)) in H. rewrite length_map in H.
    exact H.
  - rewrite H; reflexivity.
Qed.

Lemma ok_unit (r : result unit) : (exists e, r = Raise e) \/ r = Ok tt.
Proof. destruct r as [[]|e]; eauto. Qed.

(** What a run of [main] is, case by case. *)
Lemma main_cases (directory output_file : str) :
  let dir := dirname (abspath output_file) in
  let content := report directory in
  let console := List.map Printed (snd (process_directory directory)) in
  let results := value (process_directory directory) in
  (path_exists directory = false
   /\ exists line, main directory output_file = (1, [Printed line]))
  \/ (path_exists directory = true /\ path_isdir directory = false
      /\ exists line, main directory output_file = (1, [Printed line]))
  \/ (path_exists directory = true /\ path_isdir directory = true
      /\ html_files directory = []
      /\ exists line,
           main directory output_file = (1, console ++ [Printed line]))
  \/ (path_exists directory = true /\ path_isdir directory = true
      /\ html_files directory <> []
      /\ ((dir <> [] /\ path_exists dir = false
           /\ (exists e, makedirs dir = Raise e)
           /\ exists line,
                main directory output_file
                = (1, console ++ [Makedirs dir; Printed line]))
          \/ (dir <> [] /\ path_exists dir = false
              /\ makedirs dir = Ok tt
              /\ (exists e, write_text output_file content = Raise e)
              /\ exists line,
                   main directory output_file
                   = (1, console
                         ++ [Makedirs dir; Write output_file content;
                             Printed line]))
          \/ (dir <> [] /\ path_exists dir = false
              /\ makedirs dir = Ok tt
              /\ write_text output_file content = Ok tt
              /\ main directory output_file
                 = (0, console
                       ++ [Makedirs dir; Write output_file content;
                           Printed (py "Successfully processed "
                                    ++ str_of_nat (List.length results)
                                    ++ py " files");
                           Printed (py "Results written to: "
                                    ++ output_file)]))
          \/ ((dir = [] \/ path_exists dir = true)
              /\ (exists e, write_text output_file content = Raise e)
              /\ exists line,
                   main directory output_file
                   = (1, console
                         ++ [Write output_file content; Printed line]))
          \/ ((dir = [] \/ path_exists dir = true)
              /\ write_text output_file content = Ok tt
              /\ main directory output_file
                 = (0, console
                       ++ [Write output_file content;
                           Printed (py "Successfully processed "
                                    ++ str_of_nat (List.length results)
                                    ++ py " files");
                           Printed (py "Results written to: "
                                    ++ output_file)])))).
Proof.
  cbv zeta beta.
  pose proof (results_nil_iff directory) as Hnil.
  unfold Cli.main, Cli.write_report, value in *. cbv zeta.
  destruct (path_exists directory) eqn:Hex; simpl negb; cbv iota;
    [|left; split; [reflexivity | eexists; reflexivity]].
  destruct (path_isdir directory) eqn:Hdir; simpl negb; cbv iota;
    [|right; left; repeat split; eexists; reflexivity].
  right; right.
  destruct (process_directory directory) as [results console].
  simpl fst in *; simpl snd in *.
  unfold then_run, printed, done, call, say; cbn [fst snd]; cbv beta iota.
  destruct results as [|r rs].
  { left. repeat split; [apply Hnil; reflexivity|].
    eexists; reflexivity. }
  right. repeat (split; [reflexivity|]).
  split; [intros E; apply Hnil in E; discriminate|].
  destruct (truthy (dirname (abspath output_file))) eqn:Ht; simpl andb;
    cbv iota.
  - apply truthy_true in Ht.
    destruct (path_exists (dirname (abspath output_file))) eqn:Hd;
      simpl negb; cbv iota.
    + destruct (ok_unit
                  (write_text output_file (format_output (r :: rs))))
        as [[e Hw] | Hw]; rewrite Hw; cbv beta iota.
      * do 3 right; left. repeat split; eauto. eexists; reflexivity.
      * do 4 right. repeat split; auto.
    + destruct (ok_unit (makedirs (dirname (abspath output_file))))
        as [[e Hm] | Hm]; rewrite Hm; cbv beta iota.
      * left. repeat split; eauto. eexists; reflexivity.
      * destruct (ok_unit
                    (write_text output_file (format_output (r :: rs))))
          as [[e Hw] | Hw]; rewrite Hw; cbv beta iota.
        -- right; left. repeat split; eauto. eexists; reflexivity.
        -- right; right; left. repeat split; auto.
  - apply truthy_false in Ht.
    destruct (ok_unit
                (write_text output_file (format_output (r :: rs))))
      as [[e Hw] | Hw]; rewrite Hw; cbv beta iota.
    + do 3 right; left. repeat split; eauto. eexists; reflexivity.
    + do 4 right. repeat split; auto.
Qed.


(** X13. [main] makes a directory or writes a file only after the input
    path was found to be a directory with files in it; the only directory
    it makes is the missing one of the output file, and the only file it
    writes is the output file, with the report of the batch. *)
Theorem main_touches (directory output_file : str) (e : effect) :
  In e (trace (main directory output_file)) -> touches e = true ->
  path_exists directory = true
  /\ path_isdir directory = true
  /\ html_files directory <> []
  /\ ((e = Makedirs (dirname (abspath output_file))
       /\ dirname (abspath output_file) <> []
       /\ path_exists (dirname (abspath output_file)) = false)
      \/ (e = Write output_file (report directory)
          /\ output_dir_ready output_file)).
Proof.
  cbv beta.
  assert (Hprint : forall lines, In e (List.map Printed lines) ->
                                 touches e = true -> False).
  { intros lines Hin Ht. apply in_map_iff in Hin.
    destruct Hin as (line & <- & _). discriminate. }
  destruct (main_cases directory output_file)
    as [(H1 & l & ->)
       | [(H1 & H2 & l & ->)
         | [(H1 & H2 & H3 & l & ->)
           | (H1 & H2 & H3 &
              [(D1 & D2 & (err & D3) & l & ->)
              | [(D1 & D2 & D3 & (err & W) & l & ->)
                | [(D1 & D2 & D3 & W & ->)
                  | [(D & (err & W) & l & ->)
                    | (D & W & ->)]]]])]]];
    cbv beta zeta in *; simpl trace; intros Hin Ht;
    try apply in_app_or in Hin;
    try (destruct Hin as [Hin | Hin];
         [exfalso; eapply Hprint; eassumption|]);
    simpl in Hin;
    repeat (destruct Hin as [Hin | Hin]);
    try contradiction; subst e; try discriminate;
    repeat (split; [assumption|]).
  - left; auto.
  - left; auto.
  - right; auto.
  - left; auto.
  - right; auto.
  - right; split; [reflexivity|]. destruct D; auto.
  - right; split; [reflexivity|]. destruct D; auto.
Qed.

End Main.


Lemma main_touches_witness :
  Disk.exists_in (py "in") = true
  /\ Disk.isdir_in (py "in") = true
  /\ html_files Samples.sample_glob Samples.sample_join (py "in") <> []
  /\ ((Makedirs (py "/out")
       = Makedirs (Disk.dirname_out (Disk.abspath_root (py "out/report.txt")))
       /\ Disk.dirname_out (Disk.abspath_root (py "out/report.txt")) <> []
       /\ Disk.exists_in
            (Disk.dirname_out (Disk.abspath_root (py "out/report.txt")))
          = false)
      \/ (Makedirs (py "/out")
          = Write (py "out/report.txt")
              (format_output
                 (value
                    (process_directory Samples.ascii_digits_only
                       Samples.sample_read Samples.sample_glob
                       Samples.sample_join Samples.sample_basename
                       (py "in"))))
          /\ (Disk.dirname_out (Disk.abspath_root (py "out/report.txt")) = []
              \/ Disk.exists_in
                   (Disk.dirname_out
                      (Disk.abspath_root (py "out/report.txt"))) = true
              \/ Disk.makedirs_ok
                   (Disk.dirname_out
                      (Disk.abspath_root (py "out/report.txt"))) = Ok tt))).
Proof.
  apply (main_touches Samples.ascii_digits_only Samples.sample_read
           Samples.sample_glob Samples.sample_join Samples.sample_basename
           Disk.exists_in Disk.isdir_in Disk.abspath_root Disk.dirname_out
           Disk.makedirs_ok Disk.write_denied (py "in")
           (py "out/report.txt") (Makedirs (py "/out"))).
  - vm_compute. do 4 right; left; reflexivity.
  - reflexivity.
Defined.

End CliFacts.

(* ================================================================== *)
(** ** More on the batch *)

Module BatchFacts.
Import Py Bs4 ParseQuestions PyFacts SortFacts.

Section BatchFacts.
Variable unicode_Nd : char -> bool.
Variable read_soup : str -> result node.
Variable glob : str -> list str.
Variable path_join : str -> str -> str.
Variable basename : str -> str.

#[local] Abbreviation parse_body := (parse_body unicode_Nd read_soup).
#[local] Abbreviation parse_html_file :=
  (parse_html_file unicode_Nd read_soup).
#[local] Abbreviation process_files :=
  (process_files unicode_Nd read_soup basename).
#[local] Abbreviation html_files := (html_files glob path_join).
#[local] Abbreviation process_directory :=
  (process_directory unicode_Nd read_soup glob path_join basename).

(** X14. Reading is the only step that can fault: a document that was read
    and built into a tree is parsed, with the name and the questions
    extracted from the tree, and the sentinel stands for read faults
    only. *)
Theorem only_reading_faults (path : str) :
  (forall e, parse_body path = Raise e <-> read_soup path = Raise e)
  /\ (forall soup,
        read_soup path = Ok soup ->
        exists name,
          extract_name unicode_Nd soup = Ok name
          /\ parse_body path
             = Ok (mk_parsed name (extract_questions soup) path)).
Proof.
  assert (Hok : forall soup,
            read_soup path = Ok soup ->
            exists name,
              extract_name unicode_Nd soup = Ok name
              /\ parse_body path
                 = Ok (mk_parsed name (extract_questions soup) path)).
  { intros soup H.
    destruct (Names.extract_name_nonempty unicode_Nd soup) as (n & En & _).
    exists n; split; [assumption|].
    unfold ParseQuestions.parse_body. rewrite H; cbn [bind].
    rewrite En; reflexivity. }
  split; [|exact Hok].
  intros e; split; intros H.
  - destruct (read_soup path) as [soup|e'] eqn:E.
    + destruct (Hok soup eq_refl) as (n & _ & Hb). congruence.
    + unfold ParseQuestions.parse_body in H. rewrite E in H.
      inversion H; reflexivity.
  - unfold ParseQuestions.parse_body. rewrite H; reflexivity.
Qed.




End BatchFacts.

Lemma only_reading_faults_witness :
  ParseQuestions.parse_body Samples.ascii_digits_only Samples.sample_read
    (py "in/a.html")
  = Raise (py "[Errno 13] Permission denied")
  /\ exists name,
       extract_name Samples.ascii_digits_only Samples.jane = Ok name
       /\ ParseQuestions.parse_body Samples.ascii_digits_only
            Samples.sample_read (py "in/b.html")
          = Ok (mk_parsed name (extract_questions Samples.jane)
                  (py "in/b.html")).
Proof.
  split.
  - apply (proj1 (only_reading_faults Samples.ascii_digits_only
                    Samples.sample_read (py "in/a.html"))).
    reflexivity.
  - apply (proj2 (only_reading_faults Samples.ascii_digits_only
                    Samples.sample_read (py "in/b.html"))).
    reflexivity.
Defined.


End BatchFacts.
